(** * Projeto_QFM: the drug-property dashboard [app.py]

    A shallow embedding of the computations of [app.py] and of the small
    part of Python's numeric semantics they rest on, followed by the
    properties of the specification that were checked against it.

    Python's [float] is IEEE-754 binary64; it is embedded as Rocq's
    primitive [float], whose operations are the same binary64
    operations (round to nearest, ties to even).  Python's [int] is
    unbounded and is embedded as [Z]. *)

From Stdlib Require Import ZArith List String Ascii Bool Lia Floats.
Import ListNotations.


(* ================================================================= *)
(** ** Python values, exceptions and arithmetic *)

Module Py.

(** The exception classes that the program can meet.  The first six
    are raised by Python or by the libraries the program calls.  The
    last four are the error kinds named by the specification; no
    statement of [app.py] defines, raises or catches any of them. *)
Variant exception : Type :=
  | ZeroDivisionError
  | OverflowError
  | KeyError
  | IndexError
  | ValueError
  | ArgumentError
  | InvalidInputError
  | DegenerateRangeError
  | InvalidStructureError
  | InvalidColumnError.

(** The outcome of evaluating an expression: a value, or a raised
    exception that unwinds to the caller ([app.py] has no
    [try]/[except]). *)
Inductive result (A : Type) : Type :=
  | Ok (a : A)
  | Raise (e : exception).
Arguments Ok {A} a.
Arguments Raise {A} e.

(** [fails_with r e]: the evaluation raised the exception [e]. *)
Definition fails_with {A} (r : result A) (e : exception) : Prop :=
  r = Raise e.

Definition bind {A B} (r : result A) (k : A -> result B) : result B :=
  match r with
  | Ok a => k a
  | Raise e => Raise e
  end.

(** A list comprehension whose body may raise: elements are evaluated
    left to right and the first exception aborts the whole list. *)
Fixpoint mapM {A B} (f : A -> result B) (l : list A) : result (list B) :=
  match l with
  | [] => Ok []
  | a :: l' =>
      bind (f a) (fun b => bind (mapM f l') (fun bs => Ok (b :: bs)))
  end.

(** Numbers: [int] and [float]. *)
Variant number : Type :=
  | PyInt (z : Z)
  | PyFloat (f : float).

(** The double nearest to an integer (ties to even), infinite when
    the integer is beyond the largest double: first in the terms of
    the IEEE-754 specification, then as a primitive double. *)
Definition Z2SF (z : Z) : spec_float := binary_normalize prec emax z 0 false.

Definition float_of_Z (z : Z) : float := SF2Prim (Z2SF z).

(** [float(z)] as the arithmetic operators apply it to an [int]
    operand: "OverflowError: int too large to convert to float". *)
Definition int_to_float (z : Z) : result float :=
  let f := float_of_Z z in
  if is_finite f then Ok f else Raise OverflowError.

Definition as_float (n : number) : result float :=
  match n with
  | PyInt z => int_to_float z
  | PyFloat f => Ok f
  end.

(** [a - b]: exact on two ints, otherwise both operands become
    doubles and are subtracted as such. *)
Definition sub (a b : number) : result number :=
  match a, b with
  | PyInt x, PyInt y => Ok (PyInt (x - y))
  | _, _ =>
      bind (as_float a) (fun x =>
      bind (as_float b) (fun y => Ok (PyFloat (x - y))))
  end.

(** [x / y] on two ints, as [long_true_divide] computes it: the
    correctly rounded quotient.  A zero dividend gives a zero with the
    sign of the operands ([0 / -5] is [-0.0]); two operands below 2^53
    are converted, which is exact, and divided as doubles; otherwise
    the quotient is rounded once from the integers, with
    "OverflowError: integer division result too large for a float". *)
Definition int_true_divide (x y : Z) : result float :=
  if (y =? 0)%Z then Raise ZeroDivisionError
  else
    let negate := xorb (x <? 0)%Z (y <? 0)%Z in
    if (x =? 0)%Z then Ok (if negate then neg_zero else zero)
    else if ((Z.abs x <? 2 ^ 53) && (Z.abs y <? 2 ^ 53))%Z then
      let r := (float_of_Z (Z.abs x) / float_of_Z (Z.abs y))%float in
      Ok (if negate then (- r)%float else r)
    else
      let '(q, e, l) :=
        SFdiv_core_binary prec emax (Z.abs x) 0 (Z.abs y) 0 in
      let f := SF2Prim (binary_round_aux prec emax negate q e l) in
      if is_infinity f then Raise OverflowError else Ok f.

(** [a / b]: true division always yields a float; a zero divisor
    raises [ZeroDivisionError] whatever the dividend. *)
Definition truediv (a b : number) : result float :=
  match a, b with
  | PyInt x, PyInt y => int_true_divide x y
  | _, _ =>
      bind (as_float a) (fun x =>
      bind (as_float b) (fun y =>
      if (y =? 0)%float then Raise ZeroDivisionError
      else Ok (x / y)%float))
  end.

(** [a * b] on a float and a float. *)
Definition fmul (a b : float) : float := (a * b)%float.

(** Comparison of a finite double with an int is exact. *)
Definition exact_compare (f : float) (z : Z) : option comparison :=
  match Prim2SF f with
  | S754_zero _ => Some (0 ?= z)%Z
  | S754_finite s m e =>
      let v := cond_Zopp s (Zpos m) in
      Some (if (0 <=? e)%Z then (v * 2 ^ e ?= z)%Z
            else (v ?= z * 2 ^ (- e))%Z)
  | _ => None
  end.

(** [float] against [int] as [float_richcompare] does it: an infinity
    or a NaN is compared with [0.0] in place of the int; an int of at
    most 48 bits is converted and compared as a double; a wider int
    is compared exactly. *)
Definition float_int_compare (f : float) (z : Z) : option comparison :=
  if negb (is_finite f) then SFcompare (Prim2SF f) (S754_zero false)
  else if (Z.log2 (Z.abs z) <? 48)%Z
       then SFcompare (Prim2SF f) (Prim2SF (float_of_Z z))
       else exact_compare f z.

Definition compare (a b : number) : option comparison :=
  match a, b with
  | PyInt x, PyInt y => Some (x ?= y)%Z
  | PyFloat x, PyFloat y => SFcompare (Prim2SF x) (Prim2SF y)
  | PyFloat x, PyInt y => float_int_compare x y
  | PyInt x, PyFloat y => option_map CompOpp (float_int_compare y x)
  end.

(** [a == b], [a < b], [a <= b].  Every comparison with a NaN is
    false. *)
Definition eq (a b : number) : bool :=
  match compare a b with Some Eq => true | _ => false end.
Definition lt (a b : number) : bool :=
  match compare a b with Some Lt => true | _ => false end.
Definition le (a b : number) : bool :=
  match compare a b with Some (Lt | Eq) => true | _ => false end.

(** A number that the operators above treat exactly: a finite double,
    or an int of at most 48 bits, which every conversion to a double
    represents as it is. *)
Definition regular (n : number) : bool :=
  match n with
  | PyInt z => (Z.log2 (Z.abs z) <? 48)%Z
  | PyFloat f => is_finite f
  end.

(** A number that is neither an infinity nor a NaN. *)
Definition finite (n : number) : bool :=
  match n with
  | PyInt _ => true
  | PyFloat f => is_finite f
  end.

End Py.

Import Py.

Notation "x <- c ;; k" := (Py.bind c (fun x => k))
  (at level 61, c at next level, right associativity).

(* ================================================================= *)
(** ** Doubles in the terms of the IEEE-754 specification *)

Module Binary64.

(** The canonical mantissa and exponent of a positive integer below
    2^53: the integer shifted left until it has 53 digits. *)
Definition int_mantissa (c : positive) : positive :=
  Z.to_pos (Zpos c * 2 ^ (53 - Zpos (digits2_pos c))).
Definition int_exponent (c : positive) : Z :=
  (Zpos (digits2_pos c) - 53)%Z.

(** The kinds of double. *)
Definition SF_zero (x : spec_float) : bool :=
  match x with S754_zero _ => true | _ => false end.
Definition SF_nan (x : spec_float) : bool :=
  match x with S754_nan => true | _ => false end.
Definition SF_finite (x : spec_float) : bool :=
  match x with S754_zero _ | S754_finite _ _ _ => true | _ => false end.

(** The double that an operand of an arithmetic operator stands for. *)
Definition operand (n : number) : spec_float :=
  match n with
  | PyInt z => Z2SF z
  | PyFloat f => Prim2SF f
  end.

(** A number that converts to a double exactly: any double, and an
    int below 2^53. *)
Definition convertible (n : number) : Prop :=
  match n with
  | PyInt z => (Z.abs z < 2 ^ 53)%Z
  | PyFloat _ => True
  end.

End Binary64.

Import Binary64.

(* ================================================================= *)
(** ** The cheminformatics toolkit (RDKit), taken as a parameter *)

Module RDKit.

(** The toolkit is not part of the repository.  It is an argument of
    every function that calls it.  A toolkit function receives what
    [Chem.MolFromSmiles] returned, which is [None] for a string that
    does not parse, and either returns or raises. *)
Record toolkit : Type := {
  Mol : Type;
  Image : Type;
  MolFromSmiles : string -> option Mol;
  MolWt : option Mol -> result float;
  NumHDonors : option Mol -> result Z;
  NumHAcceptors : option Mol -> result Z;
  MolLogP : option Mol -> result float;
  qed : option Mol -> result float;
  MolToImage : option Mol -> result Image;
  CalcMolFormula : option Mol -> result string
}.

(** The toolkit answers for every molecule it has parsed. *)
Record answers (tk : toolkit) : Prop := {
  MolWt_answers : forall m, exists v, MolWt tk (Some m) = Ok v;
  NumHDonors_answers : forall m, exists v, NumHDonors tk (Some m) = Ok v;
  NumHAcceptors_answers :
    forall m, exists v, NumHAcceptors tk (Some m) = Ok v;
  MolLogP_answers : forall m, exists v, MolLogP tk (Some m) = Ok v;
  qed_answers : forall m, exists v, qed tk (Some m) = Ok v
}.

End RDKit.

(* ================================================================= *)
(** ** [app.py], lines 15-102: the functions of the application *)

Module App.

Import RDKit.

(** A [dict] keeps its keys in insertion order. *)
Definition dict (V : Type) := list (string * V).
Definition keys {V} (d : dict V) : list string := map fst d.
Definition values {V} (d : dict V) : list V := map snd d.

(** Lines 15-43. *)
Definition calculate_lipinski_properties (tk : toolkit) (smiles : string)
  : result (dict number) :=
  let mol := MolFromSmiles tk smiles in
  molecular_weight <- MolWt tk mol ;;
  num_hydrogen_bond_donors <- NumHDonors tk mol ;;
  num_hydrogen_bond_acceptors <- NumHAcceptors tk mol ;;
  logp <- MolLogP tk mol ;;
  qed_value <- qed tk mol ;;
  let is_pass :=
    Py.le (PyFloat molecular_weight) (PyInt 500)
    && Py.le (PyInt num_hydrogen_bond_donors) (PyInt 5)
    && Py.le (PyInt num_hydrogen_bond_acceptors) (PyInt 10)
    && Py.le (PyFloat logp) (PyInt 5) in
  let lipinski_properties :=
    [ ("HBD"%string, PyInt num_hydrogen_bond_donors);
      ("MW"%string, PyFloat molecular_weight);
      ("QED"%string, PyFloat qed_value);
      ("LogP"%string, PyFloat logp);
      ("HBA"%string, PyInt num_hydrogen_bond_acceptors) ] in
  Ok lipinski_properties.

(** [zip] of three lists stops at the shortest. *)
Fixpoint zip3 {A B C} (a : list A) (b : list B) (c : list C)
  : list (A * B * C) :=
  match a, b, c with
  | x :: a', y :: b', z :: c' => (x, y, z) :: zip3 a' b' c'
  | _, _, _ => []
  end.

(** Line 53, the body of the comprehension:
    [(value - min_val) / (max_val - min_val)]. *)
Definition normalize (value min_val max_val : number) : result float :=
  num <- Py.sub value min_val ;;
  den <- Py.sub max_val min_val ;;
  Py.truediv num den.

(** Line 53, the comprehension over
    [zip(values, min_values, max_values)]. *)
Definition normalized_values (values min_values max_values : list number)
  : result (list float) :=
  mapM (fun '(value, min_val, max_val) => normalize value min_val max_val)
       (zip3 values min_values max_values).


(** [l += l[:1]]: close the loop with the first element. *)
Definition close_loop {A} (l : list A) : list A := l ++ firstn 1 l.

(** [np.pi] and [np.linspace(start, stop, num, endpoint=False)]. *)
Definition np_pi : float := 0x1.921fb54442d18p+1%float.

Definition float_of_nat (n : nat) : float := float_of_Z (Z.of_nat n).

Definition np_linspace_open (start stop : float) (num : nat) : list float :=
  let step := ((stop - start) / float_of_nat num)%float in
  map (fun i => (float_of_nat i * step + start)%float) (seq 0 num).

(** What the function hands to the plotting library.  A label
    [(prop, max_val)] stands for the text [f"{prop} ({max_val})"] and
    an annotation [(angle, radius, value)] for the text
    [f"{value:.1f}"] placed at that angle and radius; [capitalize s]
    stands for the text [s.capitalize()]. *)
Variant text : Type :=
  | capitalize (s : string).

Record figure : Type := {
  polygon : list float * list float;
  threshold : list float * list number;
  xticks : list float;
  xticklabels : list (string * number);
  annotations : list (float * float * number);
  plt_title : text;
  colour : string
}.

(** [ax.fill(x, y)] and [ax.plot(x, y)]: "ValueError: x and y must
    have same first dimension". *)
Definition same_first_dimension {A B} (x : list A) (y : list B)
  : result unit :=
  if (List.length x =? List.length y)%nat then Ok tt else Raise ValueError.

Definition value_padding : float := 0x1.b333333333333p-1%float.

(** Lines 45-88. *)
Definition create_radar_plot_with_threshold
    (lipinski_properties : dict number) (min_values max_values : list number)
    (title color : string) : result figure :=
  let properties := keys lipinski_properties in
  let values := values lipinski_properties in
  let properties_labels := combine properties max_values in
  normalized_values <- normalized_values values min_values max_values ;;
  let normalized_values := close_loop normalized_values in
  let angles :=
    np_linspace_open 0 (2 * np_pi)%float (List.length properties) in
  let angles := close_loop angles in
  let threshold_values := repeat (PyInt 1) (List.length properties) in
  let threshold_values := close_loop threshold_values in
  _ <- same_first_dimension angles normalized_values ;;
  _ <- same_first_dimension angles threshold_values ;;
  let texts :=
    map (fun '(angle, value, normalized_value) =>
           (angle, fmul normalized_value value_padding, value))
        (zip3 (removelast angles) values (removelast normalized_values)) in
  Ok {| polygon := (angles, normalized_values);
        threshold := (angles, threshold_values);
        xticks := removelast angles;
        xticklabels := properties_labels;
        annotations := texts;
        plt_title := capitalize title;
        colour := color |}.

(** Lines 90-93. *)
Definition chemical_struture_2d (tk : toolkit) (smiles : string)
  : result (Image tk) :=
  let m := MolFromSmiles tk smiles in
  img <- MolToImage tk m ;;
  Ok img.

(** Lines 95-102.  [str.translate(SUB)] replaces every digit by its
    subscript, U+2080 to U+2089 (three bytes in UTF-8). *)
Definition subscript (c : ascii) : string :=
  let n := nat_of_ascii c in
  if ((48 <=? n) && (n <=? 57))%nat
  then String (ascii_of_nat 226)
         (String (ascii_of_nat 130)
            (String (ascii_of_nat (128 + (n - 48))) EmptyString))
  else String c EmptyString.

Fixpoint translate_SUB (s : string) : string :=
  match s with
  | EmptyString => EmptyString
  | String c s' => (subscript c ++ translate_SUB s')%string
  end.

Definition smiles_to_molecular_formula (tk : toolkit) (smiles : string)
  : result string :=
  let mol := MolFromSmiles tk smiles in
  formula_molecular <- CalcMolFormula tk mol ;;
  let formula_molecular := translate_SUB formula_molecular in
  Ok formula_molecular.

(** The characters that [SUB] maps, the ASCII digits [0] to [9], and
    the digits that a string holds, in their order. *)
Definition is_digit (c : ascii) : bool :=
  let n := nat_of_ascii c in ((48 <=? n) && (n <=? 57))%nat.

Definition digits (s : string) : list ascii :=
  filter is_digit (list_ascii_of_string s).

End App.

Import App.

(* ================================================================= *)
(** ** The dataset *)

Module Data.

(** One row of [data/medicamentos.xlsx].  The workbook is not in the
    repository; the columns are those that [app.py] reads by name
    (lines 166-229).  A numeric cell is a double, an empty one a
    NaN. *)
Record drug : Type := {
  farmaco : string;
  canonical_smiles : string;
  classe_farmacologica : string;
  via_administracao : string;
  periodo : string;
  massa_molecular : float;
  log_p : float;
  atomos_pesados : float;
  alh : float;
  dlh : float;
  lig_rot : float;
  num_ar : float;
  tpsa : float;
  qed : float
}.

Definition dataframe : Type := list drug.

(** The numeric columns, under the names of line 229. *)
Definition numeric_columns : list (string * (drug -> float)) :=
  [ ("massa_molecular", massa_molecular); ("log_p", log_p);
    ("atomos_pesados", atomos_pesados); ("alh", alh); ("dlh", dlh);
    ("lig.rot.", lig_rot); ("num_ar", num_ar); ("tpsa", tpsa);
    ("qed", qed) ]%string.

Fixpoint lookup {V} (name : string) (d : list (string * V)) : option V :=
  match d with
  | [] => None
  | (k, v) :: d' => if String.eqb k name then Some v else lookup name d'
  end.

(** [dataframe[name]] for a numeric column. *)
Definition column (df : dataframe) (name : string) : result (list float) :=
  match lookup name numeric_columns with
  | Some get => Ok (map get df)
  | None => Raise KeyError
  end.

(** [dataframe[dataframe[key] == value]] on a text column. *)
Definition where_eq (key : drug -> string) (value : string)
    (df : dataframe) : dataframe :=
  filter (fun row => String.eqb (key row) value) df.

End Data.

Import Data.

(* ================================================================= *)
(** ** Descriptive statistics ([DataFrame.describe]) *)

Module Pandas.

(** A row label of a statistics table; [percent q] stands for the
    label that prints the percentile [q] ("25%" for [0.25]). *)
Variant index_label : Type :=
  | label (s : string)
  | percent (q : float).

(** A statistics table: for every numeric column, its labelled
    statistics from top to bottom. *)
Definition series : Type := list (index_label * float).
Definition table : Type := list (string * series).

Definition dropna (xs : list float) : list float :=
  filter (fun x => negb (is_nan x)) xs.

Definition fsum (xs : list float) : float :=
  fold_left PrimFloat.add xs 0%float.

Definition count (xs : list float) : float :=
  float_of_nat (List.length (dropna xs)).

(** The mean of no value is [0.0 / 0.0], a NaN. *)
Definition mean (xs : list float) : float :=
  let ys := dropna xs in
  (fsum ys / float_of_nat (List.length ys))%float.

(** The sample standard deviation (divisor [n - 1]); a NaN for fewer
    than two values. *)
Definition std (xs : list float) : float :=
  let ys := dropna xs in
  let n := List.length ys in
  if (n <? 2)%nat then nan
  else
    let m := mean xs in
    PrimFloat.sqrt
      (fsum (map (fun y => ((y - m) * (y - m))%float) ys)
       / float_of_nat (n - 1))%float.

Fixpoint insert (x : float) (l : list float) : list float :=
  match l with
  | [] => [x]
  | y :: l' => if (x <=? y)%float then x :: l else y :: insert x l'
  end.

Definition sort (xs : list float) : list float :=
  fold_right insert [] xs.

Definition minimum (xs : list float) : float :=
  hd nan (sort (dropna xs)).

Definition maximum (xs : list float) : float :=
  last (sort (dropna xs)) nan.

(** The integer part of a double that is not negative. *)
Definition floor (f : float) : nat :=
  match Prim2SF f with
  | S754_finite false m e =>
      Z.to_nat (if (0 <=? e)%Z then Zpos m * 2 ^ e else Zpos m / 2 ^ (- e))
  | _ => 0%nat
  end.

(** Linear interpolation between two neighbours. *)
Definition lerp (a b t : float) : float :=
  if (0.5 <=? t)%float then (b - (b - a) * (1 - t))%float
  else (a + (b - a) * t)%float.

(** The percentile [q] (between 0 and 1) by linear interpolation
    between the closest ranks; a NaN when there is no value. *)
Definition quantile (q : float) (xs : list float) : float :=
  let ys := sort (dropna xs) in
  match ys with
  | [] => nan
  | _ =>
      let pos := (float_of_nat (List.length ys - 1) * q)%float in
      let lo := floor pos in
      let a := nth lo ys nan in
      let b := nth (S lo) ys a in
      lerp a b (pos - float_of_nat lo)%float
  end.

(** Modelled from the spec: [DataFrame.describe] is a function of the
    pandas library, which is not among the sources.  Section 4.2 asks
    for the count, the mean, the standard deviation and the requested
    percentiles of every numeric column, undefined (NaN) where there
    is no record; pandas reports the minimum and the maximum as
    well. *)
Definition describe_series (percentiles : list float) (xs : list float)
  : series :=
  [ (label "count", count xs); (label "mean", mean xs);
    (label "std", std xs); (label "min", minimum xs) ]
  ++ map (fun q => (percent q, quantile q xs)) percentiles
  ++ [ (label "max", maximum xs) ].

Definition describe (percentiles : list float) (df : dataframe) : table :=
  map (fun '(name, get) => (name, describe_series percentiles (map get df)))
      numeric_columns.

(** [DataFrame.rename(index=mapping)]: a label that is a key of the
    mapping is replaced, any other is kept. *)
Definition rename_label (mapping : list (string * string))
    (l : index_label) : index_label :=
  match l with
  | label s =>
      match lookup s mapping with
      | Some s' => label s'
      | None => l
      end
  | percent _ => l
  end.

Definition rename (mapping : list (string * string)) (t : table) : table :=
  map (fun '(name, rows) =>
         (name, map (fun '(l, v) => (rename_label mapping l, v)) rows))
      t.

(** The statistic found under a label in a column of a table. *)
Definition label_eqb (a b : index_label) : bool :=
  match a, b with
  | label s, label s' => String.eqb s s'
  | percent q, percent q' => PrimFloat.Leibniz.eqb q q'
  | _, _ => false
  end.

Fixpoint stat (l : index_label) (rows : series) : option float :=
  match rows with
  | [] => None
  | (l', v) :: rows' => if label_eqb l' l then Some v else stat l rows'
  end.

Definition at_ (t : table) (name : string) (l : index_label)
  : option float :=
  match lookup name t with
  | Some rows => stat l rows
  | None => None
  end.

End Pandas.

(* ================================================================= *)
(** ** Pairwise comparison of the periods ([posthoc_mannwhitney]) *)

Module ScikitPosthocs.




Section Posthoc.

(** The two statistical routines that the comparison calls: the
    p-value of the two-sided Mann-Whitney U test of two samples,
    and the correction of a list of p-values for multiple
    comparisons. *)
Variable mannwhitneyu : list float -> list float -> float.
Variable multipletests : string -> list float -> list float.







End Posthoc.

End ScikitPosthocs.

(* ================================================================= *)
(** ** [app.py], lines 177-260: the tabs of the page *)

Module Script.

Import RDKit Pandas ScikitPosthocs.
Local Open Scope string_scope.

(** Lines 189-190: the bounds passed for every drug. *)
Definition min_values : list number :=
  [PyInt 0; PyInt 100; PyInt 0; PyInt 0; PyInt 0].
Definition max_values : list number :=
  [PyInt 5; PyInt 500; PyInt 1; PyInt 5; PyInt 10].

(** What a tab puts on the page. *)
Inductive element (tk : toolkit) : Type :=
  | st_pyplot (fig : figure)
  | st_image (img : Image tk)
  | st_write_text (caption : string) (s : string)
  | st_write_frame (d : dict number).

(** [dataframe[dataframe['farmaco'] == name][key].iloc[0]]. *)
Definition iloc0 (df : dataframe) (name : string) (key : drug -> string)
  : result string :=
  match where_eq farmaco name df with
  | row :: _ => Ok (key row)
  | [] => Raise IndexError
  end.

(** Lines 177-202, the tab "Graficos Radar".  The class is shown as
    [classe_medicamento.capitalize()]. *)
Definition tab4 (tk : toolkit) (dataframe : Data.dataframe)
    (farmaco_selecionado : string) : result (list (element tk)) :=
  smiles_selecionado <- iloc0 dataframe farmaco_selecionado
                              canonical_smiles ;;
  classe_medicamento <- iloc0 dataframe farmaco_selecionado
                              classe_farmacologica ;;
  estrutura_2d <- chemical_struture_2d tk smiles_selecionado ;;
  formula_molecular <- smiles_to_molecular_formula tk smiles_selecionado ;;
  ro5_props <- calculate_lipinski_properties tk smiles_selecionado ;;
  polar_plot <- create_radar_plot_with_threshold
                  ro5_props min_values max_values farmaco_selecionado
                  "#0B1B82" ;;
  Ok [ st_pyplot tk polar_plot;
       st_image tk estrutura_2d;
       st_write_text tk "Classe" classe_medicamento;
       st_write_text tk "Formula Molecular" formula_molecular;
       st_write_frame tk ro5_props ].

(** Line 208: the four choices of the radio button, 'Todas', 'Oral',
    'Parenteral' and 'Topica'. *)
Variant via : Type := Todas | Oral | Parenteral | Topica.

(** The three labels of Portuguese, the second being 'media' with an
    acute accent on the e (two bytes in UTF-8). *)
Definition contagem : string := "contagem".
Definition media : string :=
  String "m" (String (ascii_of_nat 195) (String (ascii_of_nat 169) "dia")).
Definition dp : string := "dp".

Definition percentiles : list float :=
  [0.25; 0.5; 0x1.8p-1; 0x1.ccccccccccccdp-1]%float.

(** Lines 205-223, the tab "Analises Estatisticas": the table that is
    written to the page. *)
Definition tab5 (dataframe : Data.dataframe) (via_admin : via) : table :=
  let df_estatistico :=
    match via_admin with
    | Todas => describe percentiles dataframe
    | Oral =>
        describe percentiles (where_eq via_administracao "oral" dataframe)
    | Parenteral =>
        describe percentiles
                 (where_eq via_administracao "parenteral" dataframe)
    | Topica =>
        describe percentiles
                 (where_eq via_administracao "topical" dataframe)
    end in
  let df_estatistico :=
    rename [("count", contagem); ("mean", media); ("std", dp)]
           df_estatistico in
  df_estatistico.

(** The records that the selected route keeps. *)
Definition selected (dataframe : Data.dataframe) (via_admin : via)
  : Data.dataframe :=
  match via_admin with
  | Todas => dataframe
  | Oral => where_eq via_administracao "oral" dataframe
  | Parenteral => where_eq via_administracao "parenteral" dataframe
  | Topica => where_eq via_administracao "topical" dataframe
  end.

(** The statistics of a column that holds no value: a count of zero
    and every other statistic undefined. *)
Definition empty_statistics : series :=
  ([ (label contagem, 0%float); (label media, nan); (label dp, nan);
     (label "min", nan) ]
   ++ map (fun q => (percent q, nan)) percentiles
   ++ [ (label "max", nan) ])%list.

Definition empty_result : table :=
  map (fun '(name, _) => (name, empty_statistics)) numeric_columns.

(** The row labels of the table that the tab writes. *)
Definition statistics_labels : list index_label :=
  [ label contagem; label media; label dp; label "min";
    percent 0.25; percent 0.5; percent 0x1.8p-1;
    percent 0x1.ccccccccccccdp-1; label "max" ].





End Script.

Import Script.

(* ================================================================= *)
(** ** Concrete inputs *)

Module Example.

Local Open Scope string_scope.

(** A toolkit that knows one molecule, aspirin, and answers as RDKit
    does for a string it cannot parse: [MolFromSmiles] returns
    [None], the descriptor functions reject [None] with
    [ArgumentError] and [MolToImage] rejects it with [ValueError]. *)
Definition aspirin : string := "CC(=O)OC1=CC=CC=C1C(=O)O".

Definition on_mol {A} (e : exception) (v : A) (mol : option unit)
  : result A :=
  match mol with
  | Some _ => Ok v
  | None => Raise e
  end.

Definition toolkit : RDKit.toolkit :=
  {| RDKit.Mol := unit;
     RDKit.Image := unit;
     RDKit.MolFromSmiles :=
       fun s => if String.eqb s aspirin then Some tt else None;
     RDKit.MolWt := on_mol ArgumentError 0x1.68516872b020cp+7%float;
     RDKit.NumHDonors := on_mol ArgumentError 1%Z;
     RDKit.NumHAcceptors := on_mol ArgumentError 3%Z;
     RDKit.MolLogP := on_mol ArgumentError 0x1.4f62b6ae7d567p+0%float;
     RDKit.qed := on_mol ArgumentError 0x1.19a6b50b0f27cp-1%float;
     RDKit.MolToImage := on_mol ValueError tt;
     RDKit.CalcMolFormula := on_mol ArgumentError "C9H8O4" |}.

(** A drug of which only the route, the period and the molecular
    weight matter. *)
Definition drug_of (name route period : string) (mw : float) : drug :=
  {| farmaco := name; canonical_smiles := aspirin;
     classe_farmacologica := "analgesico";
     via_administracao := route; periodo := period;
     massa_molecular := mw; log_p := 1; atomos_pesados := 13;
     alh := 3; dlh := 1; lig_rot := 3; num_ar := 1; tpsa := 63;
     qed := 0.5 |}.

(** A record whose structure encoding does not parse. *)
Definition unparseable : string := "not a smiles".

Definition broken_drug : drug :=
  {| farmaco := "x"; canonical_smiles := unparseable;
     classe_farmacologica := "analgesico";
     via_administracao := "oral"; periodo := "1980-2000";
     massa_molecular := 200; log_p := 1; atomos_pesados := 13;
     alh := 3; dlh := 1; lig_rot := 3; num_ar := 1; tpsa := 63;
     qed := 0.5 |}.

(** Four records with molecular weights 200, 300, 400 and 500. *)
Definition four_drugs : dataframe :=
  [ drug_of "a" "oral" "1980-2000" 200;
    drug_of "b" "oral" "1980-2000" 300;
    drug_of "c" "oral" "1980-2000" 400;
    drug_of "d" "oral" "1980-2000" 500 ].

(** The example of the specification: HBD 2, MW 300, QED 0.8, LogP 3
    and HBA 4, first as the literals are written, then with the
    types that [calculate_lipinski_properties] returns. *)
Definition literal_properties : dict number :=
  [ ("HBD", PyInt 2); ("MW", PyInt 300);
    ("QED", PyFloat 0x1.999999999999ap-1); ("LogP", PyInt 3);
    ("HBA", PyInt 4) ].

Definition computed_properties : dict number :=
  [ ("HBD", PyInt 2); ("MW", PyFloat 300);
    ("QED", PyFloat 0x1.999999999999ap-1); ("LogP", PyFloat 3);
    ("HBA", PyInt 4) ].

(** The doubles nearest to 0.4, 0.5, 0.8, 0.6 and 0.4. *)
Definition expected_normalized : list float :=
  [ 0x1.999999999999ap-2; 0.5; 0x1.999999999999ap-1;
    0x1.3333333333333p-1; 0x1.999999999999ap-2 ]%float.



End Example.

(* ================================================================= *)
(** * Properties *)

Section Binary64Facts.

Local Open Scope Z_scope.

(** ** Binary64 arithmetic *)


Lemma digits2_pos_log2 (p : positive) :
  Zpos (digits2_pos p) = Z.log2 (Zpos p) + 1.
Proof.
  assert (H : forall q, digits2_pos q = Pos.size q)
    by (induction q; simpl; congruence).
  destruct p; simpl; rewrite ?H; lia.
Qed.

Lemma Zdigits2_log2 (m : Z) : 0 < m -> Zdigits2 m = Z.log2 m + 1.
Proof. destruct m; try lia. intros _. apply digits2_pos_log2. Qed.

Lemma Zdigits2_nonneg (m : Z) : 0 <= Zdigits2 m.
Proof. destruct m; simpl; lia. Qed.

Lemma digits2_pos_mul_pow2 (p q : positive) (k : Z) :
  0 <= k -> Zpos q = Zpos p * 2 ^ k ->
  Zpos (digits2_pos q) = Zpos (digits2_pos p) + k.
Proof.
  intros Hk Hq. rewrite !digits2_pos_log2, Hq.
  rewrite Z.log2_mul_pow2; lia.
Qed.

Lemma iter_xO_pow2 (p d : positive) :
  Zpos (Pos.iter xO p d) = Zpos p * 2 ^ Zpos d.
Proof.
  induction d as [|d IH] using Pos.peano_ind.
  - simpl. lia.
  - rewrite Pos.iter_succ, Pos2Z.inj_xO, IH, Pos2Z.inj_succ, Z.pow_succ_r; lia.
Qed.

Lemma iter_pos_nat {A} (f : A -> A) (n : positive) (x : A) :
  iter_pos f n x = Nat.iter (Pos.to_nat n) f x.
Proof.
  revert x; induction n as [n IH|n IH|]; intros x.
  - change (iter_pos f n~1 x) with (iter_pos f n (iter_pos f n (f x))).
    rewrite !IH, Pos2Nat.inj_xI.
    replace (S (2 * Pos.to_nat n)) with (Pos.to_nat n + S (Pos.to_nat n))%nat
      by lia.
    rewrite Nat.iter_add, Nat.iter_succ_r. reflexivity.
  - change (iter_pos f n~0 x) with (iter_pos f n (iter_pos f n x)).
    rewrite !IH, Pos2Nat.inj_xO.
    replace (2 * Pos.to_nat n)%nat with (Pos.to_nat n + Pos.to_nat n)%nat
      by lia.
    now rewrite Nat.iter_add.
  - reflexivity.
Qed.

(** One step of the right shift halves the mantissa. *)
Lemma shr_1_m (mrs : shr_record) :
  0 <= shr_m mrs -> shr_m (shr_1 mrs) = shr_m mrs / 2.
Proof.
  destruct mrs as [m r s]. cbn [shr_m]. intros Hm.
  destruct m as [|[p|p|]|p]; cbn [shr_1 shr_m]; try lia.
  - reflexivity.
  - apply Z.div_unique with (r := 1); lia.
  - apply Z.div_unique with (r := 0); lia.
  - reflexivity.
Qed.

Lemma shr_iter_m (k : nat) (mrs : shr_record) :
  0 <= shr_m mrs ->
  shr_m (Nat.iter k shr_1 mrs) = shr_m mrs / 2 ^ Z.of_nat k.
Proof.
  intros Hm. induction k as [|k IH].
  - simpl. now rewrite Z.div_1_r.
  - assert (Hp : 0 < 2 ^ Z.of_nat k) by (apply Z.pow_pos_nonneg; lia).
    rewrite Nat2Z.inj_succ, Z.pow_succ_r by lia. rewrite Nat.iter_succ.
    rewrite shr_1_m, IH.
    + rewrite Z.div_div by lia. f_equal; lia.
    + rewrite IH. apply Z.div_pos; lia.
Qed.

(** Shifting out zeros loses nothing. *)
Lemma shr_iter_exact (k : nat) (m : Z) :
  0 <= m ->
  Nat.iter k shr_1 (Build_shr_record (m * 2 ^ Z.of_nat k) false false)
  = Build_shr_record m false false.
Proof.
  intros Hm. induction k as [|k IH].
  - simpl. f_equal. lia.
  - rewrite Nat.iter_succ_r.
    replace (shr_1 (Build_shr_record (m * 2 ^ Z.of_nat (S k)) false false))
      with (Build_shr_record (m * 2 ^ Z.of_nat k) false false); [exact IH|].
    rewrite Nat2Z.inj_succ, Z.pow_succ_r by lia.
    assert (Hk : 0 <= m * 2 ^ Z.of_nat k) by (apply Z.mul_nonneg_nonneg; lia).
    replace (m * (2 * 2 ^ Z.of_nat k)) with (2 * (m * 2 ^ Z.of_nat k)) by lia.
    destruct (m * 2 ^ Z.of_nat k) as [|p|p]; simpl; try reflexivity; lia.
Qed.

Lemma fexp64 (e : Z) : fexp prec emax e = Z.max (e - 53) (-1074).
Proof. reflexivity. Qed.

Lemma bounded_inv (m : positive) (e : Z) :
  bounded prec emax m e = true ->
  fexp prec emax (Zpos (digits2_pos m) + e) = e /\ e <= 971.
Proof.
  unfold bounded, canonical_mantissa. intros H.
  apply andb_prop in H. destruct H as [H1 H2].
  apply Z.eqb_eq in H1. apply Z.leb_le in H2. split; [exact H1|exact H2].
Qed.

Lemma shr_fexp_canonical (m : positive) (e : Z) :
  bounded prec emax m e = true ->
  shr_fexp prec emax (Zpos m) e loc_Exact
  = (Build_shr_record (Zpos m) false false, e).
Proof.
  intros H. destruct (bounded_inv _ _ H) as [Hc _].
  unfold shr_fexp. cbn [Zdigits2]. rewrite Hc, Z.sub_diag. reflexivity.
Qed.

(** When the first shift is exact and leaves a canonical mantissa, that
    mantissa is the result. *)
Lemma binary_round_aux_exact (s : bool) (mx ex : Z) (lx : location)
    (m : positive) (e : Z) :
  bounded prec emax m e = true ->
  shr_fexp prec emax mx ex lx = (Build_shr_record (Zpos m) false false, e) ->
  binary_round_aux prec emax s mx ex lx = S754_finite s m e.
Proof.
  intros H Hs. destruct (bounded_inv _ _ H) as [_ He].
  unfold binary_round_aux. rewrite Hs.
  cbn [shr_m loc_of_shr_record round_nearest_even].
  rewrite (shr_fexp_canonical _ _ H). cbn [shr_m].
  apply Z.leb_le in He. unfold emax at 1, prec at 1.
  change (1024 - 53) with 971. now rewrite He.
Qed.

(** Rounding a value that a canonical mantissa represents returns that
    mantissa: with a left shift when the given exponent is the larger
    one, with a right shift that drops zeros when it is the smaller. *)
Lemma binary_round_exact_left (s : bool) (p m : positive) (e e' : Z) :
  bounded prec emax m e' = true ->
  e' <= e -> Zpos m = Zpos p * 2 ^ (e - e') ->
  binary_round prec emax s p e = S754_finite s m e'.
Proof.
  intros Hb Hle Hm. destruct (bounded_inv _ _ Hb) as [Hc _].
  assert (Hd : Zpos (digits2_pos p) + e = Zpos (digits2_pos m) + e').
  { rewrite (digits2_pos_mul_pow2 p m (e - e')); lia. }
  unfold binary_round. rewrite Hd, Hc. unfold shl_align.
  destruct (e' - e) as [|d|d] eqn:Ed; try lia.
  - assert (e = e') by lia. subst e'. rewrite Z.sub_diag in Hm.
    assert (m = p) by lia. subst.
    apply binary_round_aux_exact; [assumption|].
    now apply shr_fexp_canonical.
  - assert (Hmz : Pos.iter xO p d = m).
    { apply Pos2Z.inj. rewrite iter_xO_pow2, Hm. f_equal. f_equal. lia. }
    rewrite Hmz. apply binary_round_aux_exact; [assumption|].
    now apply shr_fexp_canonical.
Qed.

Lemma binary_round_exact_right (s : bool) (p m : positive) (e e' : Z) :
  bounded prec emax m e' = true ->
  e < e' -> Zpos p = Zpos m * 2 ^ (e' - e) ->
  binary_round prec emax s p e = S754_finite s m e'.
Proof.
  intros Hb Hlt Hp. destruct (bounded_inv _ _ Hb) as [Hc _].
  assert (Hd : Zpos (digits2_pos p) + e = Zpos (digits2_pos m) + e').
  { rewrite (digits2_pos_mul_pow2 m p (e' - e)); lia. }
  unfold binary_round. rewrite Hd, Hc. unfold shl_align.
  destruct (e' - e) as [|d|d] eqn:Ed; try lia.
  apply binary_round_aux_exact; [assumption|].
  unfold shr_fexp. cbn [Zdigits2]. rewrite Hd, Hc, Ed.
  cbn [shr shr_record_of_loc]. f_equal; [|lia].
  rewrite iter_pos_nat, Hp.
  replace (Zpos d) with (Z.of_nat (Pos.to_nat d)) by lia.
  apply shr_iter_exact. lia.
Qed.

Lemma digits2_pos_small (c : positive) :
  Zpos c < 2 ^ 53 -> 1 <= Zpos (digits2_pos c) <= 53.
Proof.
  intros H. rewrite digits2_pos_log2.
  assert (Z.log2 (Zpos c) < 53) by (apply Z.log2_lt_pow2; lia).
  pose proof (Z.log2_nonneg (Zpos c)). lia.
Qed.

Lemma int_mantissa_spec (c : positive) :
  Zpos c < 2 ^ 53 ->
  Zpos (int_mantissa c) = Zpos c * 2 ^ (53 - Zpos (digits2_pos c)).
Proof.
  intros H. pose proof (digits2_pos_small c H).
  unfold int_mantissa. rewrite Z2Pos.id; [reflexivity|].
  apply Z.mul_pos_pos; [lia|]. apply Z.pow_pos_nonneg; lia.
Qed.

Lemma int_bounded (c : positive) :
  Zpos c < 2 ^ 53 ->
  bounded prec emax (int_mantissa c) (int_exponent c) = true.
Proof.
  intros H. pose proof (digits2_pos_small c H) as Hd.
  unfold bounded, canonical_mantissa, int_exponent.
  rewrite (digits2_pos_mul_pow2 c (int_mantissa c)
             (53 - Zpos (digits2_pos c)));
    [|lia|now apply int_mantissa_spec].
  rewrite fexp64. apply andb_true_intro; split.
  - apply Z.eqb_eq. lia.
  - apply Z.leb_le. unfold emax, prec. lia.
Qed.

(** Rounding a mantissa that is an integer below 2^53 scaled by the
    exponent gives the canonical form of that integer. *)
Lemma binary_round_int (s : bool) (p c : positive) (e : Z) :
  e <= 0 -> Zpos p = Zpos c * 2 ^ (- e) -> Zpos c < 2 ^ 53 ->
  binary_round prec emax s p e
  = S754_finite s (int_mantissa c) (int_exponent c).
Proof.
  intros He Hp Hc. pose proof (digits2_pos_small c Hc) as Hd.
  pose proof (int_bounded c Hc) as Hb.
  pose proof (int_mantissa_spec c Hc) as Hm.
  destruct (Z_le_gt_dec (int_exponent c) e) as [Hle|Hgt].
  - apply binary_round_exact_left; [assumption|assumption|].
    rewrite Hm, Hp, <- Z.mul_assoc, <- Z.pow_add_r; unfold int_exponent in *;
      try lia.
    do 2 f_equal. lia.
  - apply binary_round_exact_right; [assumption|lia|].
    rewrite Hm, Hp, <- Z.mul_assoc, <- Z.pow_add_r; unfold int_exponent in *;
      try lia.
    do 2 f_equal. lia.
Qed.

Lemma Z2SF_pos (c : positive) :
  Zpos c < 2 ^ 53 ->
  Z2SF (Zpos c) = S754_finite false (int_mantissa c) (int_exponent c).
Proof.
  intros Hc. unfold Z2SF, binary_normalize.
  apply binary_round_int; [lia| |assumption]. simpl. lia.
Qed.

Lemma Z2SF_neg (c : positive) :
  Zpos c < 2 ^ 53 ->
  Z2SF (Zneg c) = S754_finite true (int_mantissa c) (int_exponent c).
Proof.
  intros Hc. unfold Z2SF, binary_normalize.
  apply binary_round_int; [lia| |assumption]. simpl. lia.
Qed.

Lemma Z2SF_valid (z : Z) :
  Z.abs z < 2 ^ 53 -> valid_binary (Z2SF z) = true.
Proof.
  destruct z as [|c|c]; intros H.
  - reflexivity.
  - rewrite Z2SF_pos by exact H. now apply int_bounded.
  - rewrite Z2SF_neg by exact H. now apply int_bounded.
Qed.

Lemma shl_align_spec (m : positive) (e ez : Z) :
  ez <= e -> Zpos (fst (shl_align m e ez)) = Zpos m * 2 ^ (e - ez).
Proof.
  intros H. unfold shl_align.
  destruct (ez - e) as [|d|d] eqn:Ed; try lia; cbn [fst].
  - replace (e - ez) with 0 by lia. lia.
  - rewrite iter_xO_pow2. do 2 f_equal. lia.
Qed.

(** The aligned mantissa of the canonical form of an integer. *)
Lemma shl_align_int (c : positive) (ez : Z) :
  Zpos c < 2 ^ 53 -> ez <= int_exponent c ->
  Zpos (fst (shl_align (int_mantissa c) (int_exponent c) ez))
  = Zpos c * 2 ^ (- ez).
Proof.
  intros Hc Hez. pose proof (digits2_pos_small c Hc) as Hd.
  rewrite shl_align_spec by assumption.
  rewrite (int_mantissa_spec c Hc), <- Z.mul_assoc, <- Z.pow_add_r;
    unfold int_exponent in *; try lia.
  do 2 f_equal. lia.
Qed.

(** Subtraction of the doubles of two integers below 2^52 is exact. *)
Lemma SFsub_Z2SF (a b : Z) :
  Z.abs a < 2 ^ 52 -> Z.abs b < 2 ^ 52 ->
  SF64sub (Z2SF a) (Z2SF b) = Z2SF (a - b).
Proof.
  intros Ha Hb.
  assert (Hnorm : forall (ez : Z) (c : Z),
            ez <= 0 -> Z.abs c < 2 ^ 53 ->
            binary_normalize prec emax (c * 2 ^ (- ez)) ez false = Z2SF c).
  { intros ez c Hez Hc.
    assert (Hpow : 0 < 2 ^ (- ez)) by (apply Z.pow_pos_nonneg; lia).
    destruct c as [|c|c].
    - reflexivity.
    - rewrite Z2SF_pos by exact Hc.
      destruct (Zpos c * 2 ^ (- ez)) as [|p|p] eqn:Ep; try lia.
      unfold binary_normalize. apply binary_round_int; [lia|lia|exact Hc].
    - rewrite Z2SF_neg by exact Hc.
      destruct (Zneg c * 2 ^ (- ez)) as [|p|p] eqn:Ep; try lia.
      unfold binary_normalize. apply binary_round_int; [lia|lia|exact Hc]. }
  assert (H53 : (2:Z) ^ 52 < 2 ^ 53) by (vm_compute; reflexivity).
  destruct a as [|a|a], b as [|b|b];
    rewrite ?Z2SF_pos, ?Z2SF_neg by lia;
    try (change (Z2SF 0) with (S754_zero false)); try reflexivity.
  - (* 0 - pos *) cbn [SF64sub SFsub negb]. change (0 - Zpos b) with (Zneg b).
    now rewrite Z2SF_neg by lia.
  - cbn [SF64sub SFsub negb]. change (0 - Zneg b) with (Zpos b).
    now rewrite Z2SF_pos by lia.
  - cbn [SF64sub SFsub]. rewrite Z.sub_0_r. now rewrite Z2SF_pos by lia.
  - unfold SF64sub, SFsub.
    set (ez := Z.min (int_exponent a) (int_exponent b)).
    pose proof (digits2_pos_small a ltac:(lia)).
    pose proof (digits2_pos_small b ltac:(lia)).
    rewrite !shl_align_int by (unfold ez, int_exponent in *; lia).
    cbn [cond_Zopp]. rewrite <- Z.mul_sub_distr_r.
    apply Hnorm; unfold ez, int_exponent in *; lia.
  - unfold SF64sub, SFsub.
    set (ez := Z.min (int_exponent a) (int_exponent b)).
    pose proof (digits2_pos_small a ltac:(lia)).
    pose proof (digits2_pos_small b ltac:(lia)).
    rewrite !shl_align_int by (unfold ez, int_exponent in *; lia).
    cbn [cond_Zopp]. rewrite <- Z.mul_opp_l, <- Z.mul_sub_distr_r.
    apply Hnorm; unfold ez, int_exponent in *; lia.
  - cbn [SF64sub SFsub]. rewrite Z.sub_0_r. now rewrite Z2SF_neg by lia.
  - unfold SF64sub, SFsub.
    set (ez := Z.min (int_exponent a) (int_exponent b)).
    pose proof (digits2_pos_small a ltac:(lia)).
    pose proof (digits2_pos_small b ltac:(lia)).
    rewrite !shl_align_int by (unfold ez, int_exponent in *; lia).
    cbn [cond_Zopp]. rewrite <- Z.mul_opp_l, <- Z.mul_sub_distr_r.
    apply Hnorm; unfold ez, int_exponent in *; lia.
  - unfold SF64sub, SFsub.
    set (ez := Z.min (int_exponent a) (int_exponent b)).
    pose proof (digits2_pos_small a ltac:(lia)).
    pose proof (digits2_pos_small b ltac:(lia)).
    rewrite !shl_align_int by (unfold ez, int_exponent in *; lia).
    cbn [cond_Zopp]. rewrite <- !Z.mul_opp_l, <- Z.mul_sub_distr_r.
    apply Hnorm; unfold ez, int_exponent in *; lia.
Qed.

(** What a right shift by [n] places does to a mantissa that is not
    negative, and to the exponent. *)
Lemma shr_spec (mrs : shr_record) (e n : Z) :
  0 <= shr_m mrs ->
  shr_m (fst (shr mrs e n)) = shr_m mrs / 2 ^ Z.max 0 n
  /\ snd (shr mrs e n) = e + Z.max 0 n.
Proof.
  intros Hm. unfold shr. destruct n as [|p|p]; cbn [fst snd].
  - change (Z.max 0 0) with 0. rewrite Z.div_1_r. lia.
  - rewrite iter_pos_nat, shr_iter_m by assumption.
    rewrite positive_nat_Z. replace (Z.max 0 (Zpos p)) with (Zpos p) by lia.
    split; reflexivity.
  - replace (Z.max 0 (Zneg p)) with 0 by lia. rewrite Z.div_1_r. lia.
Qed.

Lemma shr_record_of_loc_m (m : Z) (l : location) :
  shr_m (shr_record_of_loc m l) = m.
Proof. destruct l as [|[]]; reflexivity. Qed.

Lemma shr_fexp_spec (m e : Z) (l : location) :
  0 <= m ->
  shr_m (fst (shr_fexp prec emax m e l))
  = m / 2 ^ Z.max 0 (fexp prec emax (Zdigits2 m + e) - e)
  /\ snd (shr_fexp prec emax m e l)
     = e + Z.max 0 (fexp prec emax (Zdigits2 m + e) - e).
Proof.
  intros Hm. unfold shr_fexp.
  destruct (shr_spec (shr_record_of_loc m l) e
              (fexp prec emax (Zdigits2 m + e) - e)) as [H1 H2].
  - now rewrite shr_record_of_loc_m.
  - rewrite shr_record_of_loc_m in H1. split; assumption.
Qed.

Lemma round_nearest_even_bounds (m : Z) (l : location) :
  m <= round_nearest_even m l <= m + 1.
Proof.
  unfold round_nearest_even. destruct l as [|[]]; try lia.
  destruct (Z.even m); lia.
Qed.

(** A positive mantissa at an exponent of the format stays positive
    under the shift that rounding applies. *)
Lemma shr_fexp_pos (m e : Z) (l : location) :
  0 < m -> -1074 <= e ->
  0 < shr_m (fst (shr_fexp prec emax m e l))
  /\ -1074 <= snd (shr_fexp prec emax m e l).
Proof.
  intros Hm He. destruct (shr_fexp_spec m e l) as [H1 H2]; [lia|].
  rewrite H1, H2. rewrite fexp64, Zdigits2_log2 by assumption.
  pose proof (Z.log2_nonneg m) as Hl.
  split; [|lia].
  destruct (Z_le_gt_dec (Z.max (Z.log2 m + 1 + e - 53) (-1074) - e) 0)
    as [Hn|Hn].
  - replace (Z.max 0 _) with 0 by lia. rewrite Z.div_1_r. exact Hm.
  - replace (Z.max 0 (Z.max (Z.log2 m + 1 + e - 53) (-1074) - e))
      with (Z.log2 m - 52) by lia.
    apply Z.div_str_pos. split; [apply Z.pow_pos_nonneg; lia|].
    transitivity (2 ^ Z.log2 m).
    + apply Z.pow_le_mono_r; lia.
    + apply Z.log2_spec. exact Hm.
Qed.

(** Rounding never produces a NaN from a mantissa that is not
    negative, and never a zero from a positive mantissa at an exponent
    of the format (gradual underflow). *)
Lemma binary_round_aux_cases (s : bool) (m e : Z) (l : location) :
  0 <= m ->
  binary_round_aux prec emax s m e l = S754_zero s
  \/ binary_round_aux prec emax s m e l = S754_infinity s
  \/ exists m' e', binary_round_aux prec emax s m e l = S754_finite s m' e'.
Proof.
  intros Hm. unfold binary_round_aux.
  destruct (shr_fexp_spec m e l Hm) as [H1 _].
  destruct (shr_fexp prec emax m e l) as [mrs' e'] eqn:E1. cbn [fst] in H1.
  assert (Hm1 : 0 <= shr_m mrs').
  { rewrite H1. apply Z.div_pos; [lia|]. apply Z.pow_pos_nonneg; lia. }
  pose proof (round_nearest_even_bounds (shr_m mrs') (loc_of_shr_record mrs'))
    as Hr.
  set (m1 := round_nearest_even (shr_m mrs') (loc_of_shr_record mrs')) in *.
  destruct (shr_fexp_spec m1 e' loc_Exact) as [H2 _]; [lia|].
  destruct (shr_fexp prec emax m1 e' loc_Exact) as [mrs'' e''] eqn:E2.
  cbn [fst] in H2.
  assert (Hm2 : 0 <= shr_m mrs'').
  { rewrite H2. apply Z.div_pos; [lia|]. apply Z.pow_pos_nonneg; lia. }
  destruct (shr_m mrs'') as [|p|p]; [auto| |lia].
  destruct (e'' <=? emax - prec); eauto.
Qed.

Lemma binary_round_aux_nonzero (s : bool) (m e : Z) (l : location) :
  0 < m -> -1074 <= e ->
  binary_round_aux prec emax s m e l = S754_infinity s
  \/ exists m' e', binary_round_aux prec emax s m e l = S754_finite s m' e'.
Proof.
  intros Hm He. unfold binary_round_aux.
  destruct (shr_fexp_pos m e l Hm He) as [H1 H1e].
  destruct (shr_fexp prec emax m e l) as [mrs' e'] eqn:E1.
  cbn [fst snd] in H1, H1e.
  pose proof (round_nearest_even_bounds (shr_m mrs') (loc_of_shr_record mrs'))
    as Hr.
  set (m1 := round_nearest_even (shr_m mrs') (loc_of_shr_record mrs')) in *.
  destruct (shr_fexp_pos m1 e' loc_Exact) as [H2 _]; [lia|lia|].
  destruct (shr_fexp prec emax m1 e' loc_Exact) as [mrs'' e''] eqn:E2.
  cbn [fst] in H2.
  destruct (shr_m mrs'') as [|p|p]; try lia.
  destruct (e'' <=? emax - prec); eauto.
Qed.

Lemma binary_round_nonzero (s : bool) (p : positive) (e : Z) :
  -1074 <= e ->
  binary_round prec emax s p e = S754_infinity s
  \/ exists m' e', binary_round prec emax s p e = S754_finite s m' e'.
Proof.
  intros He. unfold binary_round.
  destruct (shl_align p e (fexp prec emax (Zpos (digits2_pos p) + e)))
    as [mz ez] eqn:E.
  apply binary_round_aux_nonzero; [lia|].
  unfold shl_align in E. rewrite fexp64 in E.
  destruct (Z.max (Zpos (digits2_pos p) + e - 53) (-1074) - e) eqn:Ed;
    inversion E; subst; lia.
Qed.

Lemma binary_normalize_nonzero (m e : Z) :
  m <> 0 -> -1074 <= e ->
  SF_zero (binary_normalize prec emax m e false) = false
  /\ SF_nan (binary_normalize prec emax m e false) = false.
Proof.
  intros Hm He. unfold binary_normalize. destruct m as [|p|p]; [lia| |].
  - destruct (binary_round_nonzero false p e He) as [->|[m' [e' ->]]];
      split; reflexivity.
  - destruct (binary_round_nonzero true p e He) as [->|[m' [e' ->]]];
      split; reflexivity.
Qed.

Lemma valid_exponent (s : bool) (m : positive) (e : Z) :
  valid_binary (S754_finite s m e) = true ->
  fexp prec emax (Zpos (digits2_pos m) + e) = e /\ -1074 <= e.
Proof.
  cbn [SpecFloat.valid_binary]. intros H.
  destruct (bounded_inv _ _ H) as [Hc _]. split; [exact Hc|].
  rewrite fexp64 in Hc. lia.
Qed.

(** Two canonical mantissas of one sign that compare unequal differ
    once aligned. *)
Lemma aligned_differ (mx my : positive) (ex ey : Z) :
  fexp prec emax (Zpos (digits2_pos mx) + ex) = ex ->
  fexp prec emax (Zpos (digits2_pos my) + ey) = ey ->
  (ex <> ey \/ mx <> my) ->
  Zpos (fst (shl_align mx ex (Z.min ex ey)))
  <> Zpos (fst (shl_align my ey (Z.min ex ey))).
Proof.
  intros Hx Hy Hne. rewrite !shl_align_spec by lia. intros Heq.
  assert (Hd : Zpos (digits2_pos mx) + ex = Zpos (digits2_pos my) + ey).
  { apply (f_equal Z.log2) in Heq.
    rewrite !Z.log2_mul_pow2 in Heq by lia.
    rewrite !digits2_pos_log2. lia. }
  assert (He : ex = ey) by congruence.
  subst ey. rewrite Z.min_id, Z.sub_diag in Heq.
  destruct Hne as [Hne|Hne]; [congruence|]. apply Hne. lia.
Qed.

Lemma SFcompare_finite_eq (s1 s2 : bool) (m1 m2 : positive) (e1 e2 : Z) :
  SFcompare (S754_finite s1 m1 e1) (S754_finite s2 m2 e2) = Some Eq ->
  s1 = s2 /\ m1 = m2 /\ e1 = e2.
Proof.
  cbn [SFcompare]. destruct s1, s2; try discriminate.
  - destruct (Z.compare_spec e1 e2) as [He| |]; try discriminate.
    intros Hc. inversion Hc as [Hc'].
    destruct (Pos.compare_cont Eq m1 m2) eqn:E; try discriminate.
    apply Pos.compare_eq in E. auto.
  - destruct (Z.compare_spec e1 e2) as [He| |]; try discriminate.
    intros Hc. inversion Hc as [Hc']. apply Pos.compare_eq in Hc'. auto.
Qed.

Lemma SFcompare_finite_ne (s : bool) (m1 m2 : positive) (e1 e2 : Z) :
  SFcompare (S754_finite s m1 e1) (S754_finite s m2 e2) <> Some Eq ->
  e1 <> e2 \/ m1 <> m2.
Proof.
  intros H. destruct (Z.eq_dec e1 e2) as [->|]; [|auto].
  destruct (Pos.eq_dec m1 m2) as [->|]; [|auto].
  exfalso. apply H. cbn [SFcompare]. rewrite Z.compare_refl, Pos.compare_cont_refl.
  destruct s; reflexivity.
Qed.

(** The difference of two doubles that compare equal is a zero, unless
    both are infinite. *)
Lemma SFsub_eq (x y : spec_float) :
  SFcompare x y = Some Eq -> SF_finite x = true ->
  SF_zero (SF64sub x y) = true.
Proof.
  destruct x as [sx|sx| |sx mx ex], y as [sy|sy| |sy my ey];
    cbn [SF_finite]; intros Hc Hf; try discriminate;
    try (cbn [SFcompare] in Hc; destruct sx; discriminate);
    try (cbn [SFcompare] in Hc; destruct sy; discriminate).
  - destruct sx, sy; reflexivity.
  - apply SFcompare_finite_eq in Hc. destruct Hc as [-> [-> ->]].
    unfold SF64sub, SFsub. rewrite Z.sub_diag. reflexivity.
Qed.

(** The difference of two doubles that compare unequal is neither a
    zero nor a NaN: a difference too small for a normal double is a
    subnormal one. *)
Lemma SFsub_ne (x y : spec_float) (c : comparison) :
  SFcompare x y = Some c -> c <> Eq ->
  valid_binary x = true -> valid_binary y = true ->
  SF_zero (SF64sub x y) = false /\ SF_nan (SF64sub x y) = false.
Proof.
  destruct x as [sx|sx| |sx mx ex], y as [sy|sy| |sy my ey];
    try discriminate; intros Hc Hne Hvx Hvy;
    try (cbn [SFcompare] in Hc; inversion Hc; subst; congruence);
    try (split; reflexivity);
    try (destruct sx, sy; cbn [SFcompare] in Hc; inversion Hc; subst;
         try congruence; split; reflexivity).
  unfold SF64sub, SFsub.
  destruct (valid_exponent _ _ _ Hvx) as [Hcx Hex].
  destruct (valid_exponent _ _ _ Hvy) as [Hcy Hey].
  apply binary_normalize_nonzero; [|lia].
  pose proof (Pos2Z.is_pos (fst (shl_align mx ex (Z.min ex ey)))) as Hx.
  pose proof (Pos2Z.is_pos (fst (shl_align my ey (Z.min ex ey)))) as Hy.
  destruct sx, sy; cbn [cond_Zopp]; try lia.
  - assert (Hd : ex <> ey \/ mx <> my).
    { apply (SFcompare_finite_ne true). rewrite Hc. congruence. }
    pose proof (aligned_differ mx my ex ey Hcx Hcy Hd). lia.
  - assert (Hd : ex <> ey \/ mx <> my).
    { apply (SFcompare_finite_ne false). rewrite Hc. congruence. }
    pose proof (aligned_differ mx my ex ey Hcx Hcy Hd). lia.
Qed.

(** A zero divided by a double that is neither a zero nor a NaN is a
    zero. *)
Lemma SFdiv_zero (x y : spec_float) :
  SF_zero x = true -> SF_zero y = false -> SF_nan y = false ->
  SF_zero (SF64div x y) = true.
Proof.
  destruct x; try discriminate. destruct y; try discriminate; reflexivity.
Qed.

(** The quotient of a positive integer by itself, as the division
    computes it before rounding. *)
Lemma SFdiv_core_binary_self (m : positive) (e : Z) :
  SFdiv_core_binary prec emax (Zpos m) e (Zpos m) e
  = (2 ^ 53, -53, loc_Exact).
Proof.
  unfold SFdiv_core_binary. rewrite !Z.sub_diag.
  change (Z.min (fexp prec emax 0) 0) with (-53).
  change (0 - -53) with 53.
  assert (Hq : Z.div_eucl (Z.shiftl (Zpos m) 53) (Zpos m) = (2 ^ 53, 0)).
  { rewrite Z.shiftl_mul_pow2 by lia.
    pose proof (Z.div_eucl_eq (Zpos m * 2 ^ 53) (Zpos m) ltac:(lia)) as Heq.
    pose proof (Z.mod_pos_bound (Zpos m * 2 ^ 53) (Zpos m) ltac:(lia)) as Hb.
    unfold Z.modulo in Hb.
    destruct (Z.div_eucl (Zpos m * 2 ^ 53) (Zpos m)) as [q r].
    assert (Hr : r = 0).
    { assert (Hm : Zpos m * (2 ^ 53 - q) = r) by lia.
      destruct (Z.eq_dec (2 ^ 53 - q) 0) as [H0|H0]; [rewrite H0 in Hm; lia|].
      exfalso. assert (Zpos m <= Z.abs r).
      { rewrite <- Hm, Z.abs_mul.
        assert (1 <= Z.abs (2 ^ 53 - q)) by lia. nia. }
      lia. }
    subst r. f_equal. nia. }
  change (match Z.div_eucl (Z.shiftl (Zpos m) 53) (Zpos m) with
          | (q, r) => (q, -53, new_location (Zpos m) r)
          end = (2 ^ 53, -53, loc_Exact)).
  rewrite Hq. unfold new_location, new_location_even, new_location_odd.
  destruct (Z.even (Zpos m)); reflexivity.
Qed.

Lemma SFdiv_self (s : bool) (m : positive) (e : Z) :
  SF64div (S754_finite s m e) (S754_finite s m e) = Prim2SF 1.
Proof.
  unfold SF64div, SFdiv. rewrite SFdiv_core_binary_self.
  destruct s; vm_compute; reflexivity.
Qed.

End Binary64Facts.

Section Classification.

Local Open Scope Z_scope.

Lemma SFcompare_refl (x : spec_float) :
  SF_nan x = false -> SFcompare x x = Some Eq.
Proof.
  destruct x as [s|s| |s m e]; try discriminate; intros _; cbn [SFcompare].
  - reflexivity.
  - destruct s; reflexivity.
  - rewrite Z.compare_refl, Pos.compare_cont_refl. destruct s; reflexivity.
Qed.

Lemma is_nan_spec (f : float) : is_nan f = SF_nan (Prim2SF f).
Proof.
  unfold is_nan. rewrite eqb_spec. unfold SFeqb.
  destruct (SF_nan (Prim2SF f)) eqn:E.
  - destruct (Prim2SF f); try discriminate. reflexivity.
  - now rewrite SFcompare_refl.
Qed.

Lemma is_infinity_spec (f : float) :
  is_infinity f
  = match Prim2SF f with S754_infinity _ => true | _ => false end.
Proof.
  unfold is_infinity. rewrite eqb_spec, abs_spec.
  change (Prim2SF infinity) with (S754_infinity false).
  destruct (Prim2SF f) as [s|s| |s m e]; reflexivity.
Qed.

Lemma is_finite_spec (f : float) : is_finite f = SF_finite (Prim2SF f).
Proof.
  unfold is_finite. rewrite is_nan_spec, is_infinity_spec.
  destruct (Prim2SF f); reflexivity.
Qed.

Lemma eqb_zero_spec (f : float) : (f =? 0)%float = SF_zero (Prim2SF f).
Proof.
  rewrite eqb_spec. change (Prim2SF 0) with (S754_zero false).
  unfold SFeqb. destruct (Prim2SF f) as [s|s| |s m e]; cbn [SFcompare SF_zero];
    try reflexivity; destruct s; reflexivity.
Qed.

Lemma eqb_one_spec (f : float) :
  Prim2SF f = Prim2SF 1 -> (f =? 1)%float = true.
Proof. intros H. rewrite eqb_spec, H. reflexivity. Qed.

(** The sign given to rounding only signs the result. *)
Lemma binary_round_aux_opp (s : bool) (m e : Z) (l : location) :
  SFopp (binary_round_aux prec emax s m e l)
  = binary_round_aux prec emax (negb s) m e l.
Proof.
  unfold binary_round_aux.
  destruct (shr_fexp prec emax m e l) as [mrs' e'].
  destruct (shr_fexp prec emax _ e' loc_Exact) as [mrs'' e''].
  destruct (shr_m mrs''); try reflexivity.
  destruct (e'' <=? emax - prec); reflexivity.
Qed.

Lemma Z_small (z : Z) : Z.log2 (Z.abs z) < 48 -> Z.abs z < 2 ^ 48.
Proof.
  intros H. destruct (Z.eq_dec z 0) as [->|Hz]; [reflexivity|].
  apply Z.log2_lt_pow2; lia.
Qed.

Lemma Z2SF_finite (z : Z) : Z.abs z < 2 ^ 53 -> SF_finite (Z2SF z) = true.
Proof.
  destruct z as [|c|c]; intros H.
  - reflexivity.
  - now rewrite Z2SF_pos.
  - now rewrite Z2SF_neg.
Qed.

Lemma Z2SF_zero (z : Z) :
  Z.abs z < 2 ^ 53 -> SF_zero (Z2SF z) = (z =? 0).
Proof.
  destruct z as [|c|c]; intros H.
  - reflexivity.
  - now rewrite Z2SF_pos.
  - now rewrite Z2SF_neg.
Qed.

Lemma Prim2SF_float_of_Z (z : Z) :
  Z.abs z < 2 ^ 53 -> Prim2SF (float_of_Z z) = Z2SF z.
Proof.
  intros H. unfold float_of_Z. apply Prim2SF_SF2Prim. now apply Z2SF_valid.
Qed.

End Classification.

Section Operands.

Local Open Scope Z_scope.

Lemma SFcompare_swap (x y : spec_float) (c : comparison) :
  SFcompare x y = Some c -> SFcompare y x = Some (CompOpp c).
Proof.
  destruct x as [sx|sx| |sx mx ex], y as [sy|sy| |sy my ey];
    cbn [SFcompare]; intros H; inversion H; subst; clear H;
    try reflexivity;
    try (destruct sx; reflexivity); try (destruct sy; reflexivity);
    try (destruct sx, sy; reflexivity).
  destruct sx, sy; try reflexivity; f_equal;
    rewrite (Z.compare_antisym ex ey);
    destruct (ex ?= ey); cbn [CompOpp]; try reflexivity;
    rewrite ?(Pos.compare_cont_antisym mx my Eq); cbn [CompOpp];
    try reflexivity; destruct (Pos.compare_cont Eq my mx); reflexivity.
Qed.

(** Replacing the minuend by a double that compares equal changes the
    difference at most from one zero to the other. *)
Lemma SFsub_congr (x x' y : spec_float) :
  SFcompare x x' = Some Eq ->
  SF64sub x y = SF64sub x' y
  \/ (SF_zero (SF64sub x y) = true /\ SF_zero (SF64sub x' y) = true).
Proof.
  destruct x as [sx|sx| |sx mx ex], x' as [sx'|sx'| |sx' mx' ex'];
    cbn [SFcompare]; intros H; try discriminate;
    try (destruct sx; discriminate); try (destruct sx'; discriminate).
  - destruct y as [sy|sy| |sy my ey]; cbn [SF64sub SFsub]; auto.
    right. destruct sx, sx', sy; split; reflexivity.
  - destruct sx, sx'; try discriminate; auto.
  - apply SFcompare_finite_eq in H. destruct H as [-> [-> ->]]. auto.
Qed.

Lemma regular_convertible (n : number) :
  regular n = true -> convertible n.
Proof.
  destruct n as [z|f]; cbn; [|trivial]. intros H.
  apply Z.ltb_lt in H. apply Z_small in H.
  assert ((2:Z) ^ 48 < 2 ^ 53) by (vm_compute; reflexivity). lia.
Qed.

Lemma operand_valid (n : number) :
  convertible n -> valid_binary (operand n) = true.
Proof.
  destruct n as [z|f]; cbn [operand convertible]; intros H.
  - now apply Z2SF_valid.
  - apply Prim2SF_valid.
Qed.

Lemma operand_finite (n : number) :
  regular n = true -> SF_finite (operand n) = true.
Proof.
  intros H. pose proof (regular_convertible n H) as Hc.
  destruct n as [z|f]; cbn [operand regular] in *.
  - now apply Z2SF_finite.
  - now rewrite <- is_finite_spec.
Qed.

Lemma finite_operand (n : number) :
  convertible n -> Py.finite n = SF_finite (operand n).
Proof.
  destruct n as [z|f]; cbn [operand Py.finite convertible]; intros H.
  - now rewrite Z2SF_finite.
  - apply is_finite_spec.
Qed.

Lemma as_float_operand (n : number) :
  convertible n ->
  exists f, as_float n = Ok f /\ Prim2SF f = operand n.
Proof.
  destruct n as [z|f]; cbn [as_float operand convertible]; intros H.
  - exists (float_of_Z z). unfold int_to_float.
    rewrite is_finite_spec, Prim2SF_float_of_Z, Z2SF_finite by assumption.
    auto.
  - eauto.
Qed.

(** Subtraction, in the terms of the specification of doubles. *)
Lemma sub_operand (a b : number) :
  regular a = true -> regular b = true ->
  exists c, Py.sub a b = Ok c
            /\ operand c = SF64sub (operand a) (operand b)
            /\ convertible c.
Proof.
  intros Ha Hb.
  pose proof (regular_convertible a Ha) as Hca.
  pose proof (regular_convertible b Hb) as Hcb.
  assert (Hgen : forall fa fb,
            as_float a = Ok fa -> Prim2SF fa = operand a ->
            as_float b = Ok fb -> Prim2SF fb = operand b ->
            exists c,
              (fa' <- as_float a ;; fb' <- as_float b ;;
               Ok (PyFloat (fa' - fb')%float)) = Ok c
              /\ operand c = SF64sub (operand a) (operand b)
              /\ convertible c).
  { intros fa fb Ea Pa Eb Pb. rewrite Ea, Eb. cbn [Py.bind].
    eexists; split; [reflexivity|]. cbn [operand convertible].
    rewrite sub_spec, Pa, Pb. auto. }
  destruct (as_float_operand a Hca) as [fa [Ea Pa]].
  destruct (as_float_operand b Hcb) as [fb [Eb Pb]].
  destruct a as [x|x], b as [y|y]; cbn [Py.sub];
    try exact (Hgen fa fb Ea Pa Eb Pb).
  cbn [regular] in Ha, Hb. apply Z.ltb_lt in Ha, Hb.
  apply Z_small in Ha, Hb.
  assert (H52 : (2:Z) ^ 48 < 2 ^ 52) by (vm_compute; reflexivity).
  assert (H53 : (2:Z) ^ 48 + 2 ^ 48 < 2 ^ 53) by (vm_compute; reflexivity).
  eexists; split; [reflexivity|]. cbn [operand convertible]. split.
  - symmetry. apply SFsub_Z2SF; lia.
  - lia.
Qed.

Lemma Z2SF_sign (z : Z) :
  Z.abs z < 2 ^ 53 -> z <> 0 ->
  Z2SF z = S754_finite (z <? 0) (int_mantissa (Z.to_pos (Z.abs z)))
             (int_exponent (Z.to_pos (Z.abs z))).
Proof.
  destruct z as [|c|c]; intros H Hz; [lia| |].
  - now rewrite Z2SF_pos.
  - now rewrite Z2SF_neg.
Qed.

(** Division of two small ints, in the terms of the specification. *)
Lemma int_true_divide_operand (x y : Z) :
  Z.abs x < 2 ^ 53 -> Z.abs y < 2 ^ 53 -> y <> 0 ->
  exists r, int_true_divide x y = Ok r
            /\ Prim2SF r = SF64div (Z2SF x) (Z2SF y).
Proof.
  intros Hx Hy Hy0. unfold int_true_divide.
  destruct (Z.eqb_spec y 0) as [|_]; [contradiction|].
  rewrite (Z2SF_sign y Hy Hy0).
  destruct (Z.eqb_spec x 0) as [->|Hx0].
  - eexists; split; [reflexivity|].
    change (Z2SF 0) with (S754_zero false). cbn [SF64div SFdiv xorb].
    change (0 <? 0) with false. cbn [xorb].
    destruct (y <? 0); reflexivity.
  - apply Z.ltb_lt in Hx, Hy. rewrite Hx, Hy. cbn [andb].
    apply Z.ltb_lt in Hx, Hy.
    eexists; split; [reflexivity|].
    assert (Hq : Prim2SF (float_of_Z (Z.abs x) / float_of_Z (Z.abs y))
                 = SF64div (Z2SF (Z.abs x)) (Z2SF (Z.abs y))).
    { rewrite div_spec, !Prim2SF_float_of_Z; [reflexivity| |];
        rewrite Z.abs_idemp; assumption. }
    rewrite (Z2SF_sign x Hx Hx0).
    rewrite (Z2SF_sign (Z.abs x)), (Z2SF_sign (Z.abs y)) in Hq;
      try (rewrite Z.abs_idemp; assumption); try lia.
    rewrite !Z.abs_idemp in Hq.
    replace (Z.abs x <? 0) with false in Hq by (symmetry; apply Z.ltb_ge; lia).
    replace (Z.abs y <? 0) with false in Hq by (symmetry; apply Z.ltb_ge; lia).
    unfold SF64div, SFdiv in *.
    destruct (SFdiv_core_binary prec emax _ _ _ _) as [[mz ez] lz].
    destruct (xorb (x <? 0) (y <? 0)) eqn:Es.
    + rewrite opp_spec, Hq. cbn [xorb]. apply binary_round_aux_opp.
    + exact Hq.
Qed.

(** True division, in the terms of the specification of doubles. *)
Lemma truediv_operand (num den : number) :
  convertible num -> convertible den -> SF_zero (operand den) = false ->
  exists r, Py.truediv num den = Ok r
            /\ Prim2SF r = SF64div (operand num) (operand den).
Proof.
  intros Hn Hd Hz.
  assert (Hgen : forall fa fb,
            as_float num = Ok fa -> Prim2SF fa = operand num ->
            as_float den = Ok fb -> Prim2SF fb = operand den ->
            exists r,
              (fa' <- as_float num ;; fb' <- as_float den ;;
               if (fb' =? 0)%float then Raise ZeroDivisionError
               else Ok (fa' / fb')%float) = Ok r
              /\ Prim2SF r = SF64div (operand num) (operand den)).
  { intros fa fb Ea Pa Eb Pb. rewrite Ea, Eb. cbn [Py.bind].
    rewrite eqb_zero_spec, Pb, Hz.
    eexists; split; [reflexivity|]. now rewrite div_spec, Pa, Pb. }
  destruct (as_float_operand num Hn) as [fa [Ea Pa]].
  destruct (as_float_operand den Hd) as [fb [Eb Pb]].
  destruct num as [x|x], den as [y|y]; cbn [Py.truediv];
    try exact (Hgen fa fb Ea Pa Eb Pb).
  cbn [operand convertible] in *.
  apply int_true_divide_operand; try assumption.
  intros ->. discriminate.
Qed.

(** [==] between regular numbers, in the terms of the specification. *)
Lemma eq_operand (a b : number) :
  regular a = true -> regular b = true -> Py.eq a b = true ->
  SFcompare (operand a) (operand b) = Some Eq.
Proof.
  intros Ha Hb. pose proof (regular_convertible a Ha) as Hca.
  pose proof (regular_convertible b Hb) as Hcb.
  unfold Py.eq.
  destruct (Py.compare a b) as [[| |]|] eqn:Ec; try discriminate. intros _.
  destruct a as [x|x], b as [y|y]; cbn [Py.compare operand regular] in *.
  - assert (Hxy : (x ?= y) = Eq) by congruence.
    apply Z.compare_eq in Hxy. subst y.
    apply SFcompare_refl. pose proof (Z2SF_finite x Hca).
    destruct (Z2SF x); try discriminate; reflexivity.
  - unfold float_int_compare in Ec. rewrite Hb in Ec. cbn [negb] in Ec.
    rewrite Ha in Ec. rewrite Prim2SF_float_of_Z in Ec by assumption.
    destruct (SFcompare (Prim2SF y) (Z2SF x)) as [c'|] eqn:E';
      try discriminate.
    cbn [option_map] in Ec. apply SFcompare_swap in E'.
    rewrite E'. exact Ec.
  - unfold float_int_compare in Ec. rewrite Ha in Ec. cbn [negb] in Ec.
    rewrite Hb in Ec. rewrite Prim2SF_float_of_Z in Ec by assumption.
    exact Ec.
  - exact Ec.
Qed.

(** When [a < b] between regular numbers, the difference [b - a] is
    neither a zero nor a NaN. *)
Lemma lt_operand (a b : number) :
  regular a = true -> regular b = true -> Py.lt a b = true ->
  SF_zero (SF64sub (operand b) (operand a)) = false
  /\ SF_nan (SF64sub (operand b) (operand a)) = false.
Proof.
  intros Ha Hb. pose proof (regular_convertible a Ha) as Hca.
  pose proof (regular_convertible b Hb) as Hcb.
  pose proof (operand_valid a Hca) as Hva.
  pose proof (operand_valid b Hcb) as Hvb.
  unfold Py.lt.
  destruct (Py.compare a b) as [[| |]|] eqn:Ec; try discriminate. intros _.
  assert (Hswap : SFcompare (operand a) (operand b) = Some Lt ->
                  SF_zero (SF64sub (operand b) (operand a)) = false
                  /\ SF_nan (SF64sub (operand b) (operand a)) = false).
  { intros H. apply SFcompare_swap in H.
    apply (SFsub_ne _ _ _ H); [discriminate|assumption|assumption]. }
  destruct a as [x|x], b as [y|y]; cbn [Py.compare operand regular] in *.
  - assert (Hxy : x < y) by (unfold Z.lt; congruence).
    apply Z.ltb_lt in Ha, Hb. apply Z_small in Ha, Hb.
    assert (H52 : (2:Z) ^ 48 < 2 ^ 52) by (vm_compute; reflexivity).
    assert (H53 : (2:Z) ^ 48 + 2 ^ 48 < 2 ^ 53) by (vm_compute; reflexivity).
    rewrite SFsub_Z2SF by lia.
    assert (Hd : Z.abs (y - x) < 2 ^ 53) by lia.
    rewrite (Z2SF_sign (y - x) Hd) by lia. split; reflexivity.
  - unfold float_int_compare in Ec. rewrite Hb in Ec. cbn [negb] in Ec.
    rewrite Ha in Ec. rewrite Prim2SF_float_of_Z in Ec by assumption.
    destruct (SFcompare (Prim2SF y) (Z2SF x)) as [c'|] eqn:E';
      try discriminate.
    cbn [option_map] in Ec.
    apply (SFsub_ne _ _ _ E'); [|assumption|assumption].
    intros ->. discriminate.
  - unfold float_int_compare in Ec. rewrite Ha in Ec. cbn [negb] in Ec.
    rewrite Hb in Ec. rewrite Prim2SF_float_of_Z in Ec by assumption.
    exact (Hswap Ec).
  - exact (Hswap Ec).
Qed.

End Operands.

(** ** Lists and the error monad *)

Lemma bind_Ok_inv {A B} (r : result A) (k : A -> result B) (b : B) :
  Py.bind r k = Ok b -> exists a, r = Ok a /\ k a = Ok b.
Proof. destruct r as [a|e]; simpl; [eauto | discriminate]. Qed.

Lemma mapM_length {A B} (f : A -> result B) (l : list A) (out : list B) :
  mapM f l = Ok out -> List.length out = List.length l.
Proof.
  revert out; induction l as [|a l IH]; simpl; intros out H.
  - now inversion H.
  - destruct (f a) as [b|e]; simpl in H; [|discriminate].
    destruct (mapM f l) as [bs|e]; simpl in H; [|discriminate].
    inversion H; subst; simpl. now rewrite (IH bs eq_refl).
Qed.

Lemma zip3_length {A B C} (a : list A) (b : list B) (c : list C) :
  List.length (zip3 a b c)
  = Nat.min (List.length a) (Nat.min (List.length b) (List.length c)).
Proof.
  revert b c; induction a as [|x a IH]; intros [|y b] [|z c]; simpl;
    try reflexivity.
  now rewrite IH.
Qed.

Lemma close_loop_length {A} (l : list A) :
  List.length (close_loop l) = (List.length l + Nat.min 1 (List.length l))%nat.
Proof.
  unfold close_loop. rewrite length_app, length_firstn. reflexivity.
Qed.

Lemma np_linspace_open_length (start stop : float) (num : nat) :
  List.length (np_linspace_open start stop num) = num.
Proof. unfold np_linspace_open. now rewrite length_map, length_seq. Qed.

Lemma zip3_nth_error {A B C} (a : list A) (b : list B) (c : list C)
    (i : nat) (x : A) (y : B) (z : C) :
  nth_error a i = Some x -> nth_error b i = Some y ->
  nth_error c i = Some z ->
  nth_error (zip3 a b c) i = Some (x, y, z).
Proof.
  revert b c i; induction a as [|x' a IH]; intros [|y' b] [|z' c] [|i];
    cbn; try discriminate.
  - congruence.
  - apply IH.
Qed.

Lemma mapM_nth_error {A B} (f : A -> result B) (l : list A) (out : list B)
    (i : nat) (a : A) :
  mapM f l = Ok out -> nth_error l i = Some a ->
  exists b, nth_error out i = Some b /\ f a = Ok b.
Proof.
  revert out i; induction l as [|a' l IH]; intros out [|i]; cbn;
    try discriminate.
  - destruct (f a') as [b|e] eqn:E; cbn; [|discriminate].
    destruct (mapM f l) as [bs|e]; cbn; [|discriminate].
    intros H1 H2. inversion H1; inversion H2; subst. cbn. eauto.
  - destruct (f a') as [b|e] eqn:E; cbn; [|discriminate].
    destruct (mapM f l) as [bs|e] eqn:E'; cbn; [|discriminate].
    intros H1 H2. inversion H1; subst. cbn. now apply IH.
Qed.

Lemma mapM_total {A B} (f : A -> result B) (l : list A) :
  (forall a, In a l -> exists b, f a = Ok b) ->
  exists out, mapM f l = Ok out.
Proof.
  induction l as [|a l IH]; intros H; cbn.
  - eauto.
  - destruct (H a (or_introl eq_refl)) as [b ->].
    destruct IH as [bs ->]; [intros a' Ha'; apply H; now right|].
    cbn. eauto.
Qed.



(** ** What the arithmetic can raise *)

Lemma int_to_float_raises (z : Z) (e : exception) :
  int_to_float z = Raise e -> e = OverflowError.
Proof.
  unfold int_to_float. destruct (is_finite (float_of_Z z)); congruence.
Qed.

Lemma as_float_raises (n : number) (e : exception) :
  as_float n = Raise e -> e = OverflowError.
Proof. destruct n; simpl; [apply int_to_float_raises | discriminate]. Qed.






Lemma normalized_length (vs mns mxs : list number) (out : list float) :
  normalized_values vs mns mxs = Ok out ->
  List.length out
  = Nat.min (List.length vs)
            (Nat.min (List.length mns) (List.length mxs)).
Proof.
  unfold normalized_values. intros H. apply mapM_length in H.
  now rewrite H, zip3_length.
Qed.

(** ** The normalization of one descriptor *)

Lemma normalize_regular (v mn mx : number) :
  regular v = true -> regular mn = true -> regular mx = true ->
  Py.lt mn mx = true ->
  exists den r,
    Py.sub mx mn = Ok den
    /\ normalize v mn mx = Ok r
    /\ (Py.eq v mn = true -> (r =? 0)%float = true)
    /\ (Py.eq v mx = true -> Py.finite den = true ->
        (r =? 1)%float = true).
Proof.
  intros Hv Hmn Hmx Hlt.
  destruct (sub_operand v mn Hv Hmn) as [num [Enum [Onum Cnum]]].
  destruct (sub_operand mx mn Hmx Hmn) as [den [Eden [Oden Cden]]].
  destruct (lt_operand mn mx Hmn Hmx Hlt) as [Hz Hn].
  rewrite <- Oden in Hz, Hn.
  destruct (truediv_operand num den Cnum Cden Hz) as [r [Er Or]].
  exists den, r. split; [exact Eden|]. split.
  { unfold normalize. rewrite Enum, Eden. exact Er. }
  split.
  - intros Heq. rewrite eqb_zero_spec, Or.
    apply SFdiv_zero; [|assumption|assumption].
    rewrite Onum. apply SFsub_eq.
    + now apply eq_operand.
    + now apply operand_finite.
  - intros Heq Hfin. apply eqb_one_spec. rewrite Or.
    rewrite (finite_operand den Cden) in Hfin.
    assert (Hsame : operand num = operand den).
    { destruct (SFsub_congr (operand v) (operand mx) (operand mn)
                  (eq_operand v mx Hv Hmx Heq)) as [H|[_ H]].
      - now rewrite Onum, Oden.
      - rewrite <- Oden in H. congruence. }
    rewrite Hsame.
    destruct (operand den) as [s|s| |s m e]; try discriminate.
    apply SFdiv_self.
Qed.

Lemma truediv_zero (num den : number) :
  convertible num -> convertible den -> SF_zero (operand den) = true ->
  Py.truediv num den = Raise ZeroDivisionError.
Proof.
  intros Hn Hd Hz.
  destruct (as_float_operand num Hn) as [fa [Ea Pa]].
  destruct (as_float_operand den Hd) as [fb [Eb Pb]].
  assert (Hgen : (fa' <- as_float num ;; fb' <- as_float den ;;
                  if (fb' =? 0)%float then Raise ZeroDivisionError
                  else Ok (fa' / fb')%float) = Raise ZeroDivisionError).
  { rewrite Ea, Eb. cbn [Py.bind]. now rewrite eqb_zero_spec, Pb, Hz. }
  destruct num as [x|x], den as [y|y]; cbn [Py.truediv]; try exact Hgen.
  cbn [operand convertible] in *. rewrite Z2SF_zero in Hz by assumption.
  unfold int_true_divide. now rewrite Hz.
Qed.

Lemma normalize_zero_range (v mn mx : number) :
  regular v = true -> regular mn = true -> regular mx = true ->
  Py.eq mx mn = true ->
  normalize v mn mx = Raise ZeroDivisionError.
Proof.
  intros Hv Hmn Hmx Heq.
  destruct (sub_operand v mn Hv Hmn) as [num [Enum [Onum Cnum]]].
  destruct (sub_operand mx mn Hmx Hmn) as [den [Eden [Oden Cden]]].
  unfold normalize. rewrite Enum, Eden. cbn [Py.bind].
  apply truediv_zero; try assumption.
  rewrite Oden. apply SFsub_eq.
  - now apply eq_operand.
  - now apply operand_finite.
Qed.

(* ================================================================= *)
(** * The claims of the specification *)

Local Open Scope string_scope.
Local Open Scope list_scope.

(** ** The radar normalizer *)




(** ** The radar plot: what is and is not checked *)



(** ** A range of zero width *)




(** ** The example of the specification *)

(** C4: on the descriptor values HBD 2, MW 300, QED 0.8, LogP 3 and
    HBA 4, with the bounds [0,100,0,0,0] and [5,500,1,5,10] that the
    application passes for every drug, the normalization step yields
    exactly [0.4, 0.5, 0.8, 0.6, 0.4], in that order.  This holds for
    the values as the literals are written and for the types that
    [calculate_lipinski_properties] returns, and the radar polygon is
    that list closed by its first element. *)
Theorem C4_normalization_example :
  normalized_values (values Example.literal_properties) min_values max_values
  = Ok Example.expected_normalized
  /\ normalized_values (values Example.computed_properties) min_values max_values
     = Ok Example.expected_normalized
  /\ exists fig,
       create_radar_plot_with_threshold
         Example.computed_properties min_values max_values
         "aspirina" "#0B1B82" = Ok fig
       /\ snd (polygon fig) = close_loop Example.expected_normalized.
Proof.
  split; [vm_compute; reflexivity|].
  split; [vm_compute; reflexivity|].
  eexists; split; [vm_compute; reflexivity|].
  vm_compute; reflexivity.
Qed.

(** ** The statistics tab *)

Lemma tab5_selected (df : dataframe) (via_admin : via) :
  tab5 df via_admin
  = Pandas.rename [("count", contagem); ("mean", media); ("std", dp)]
      (Pandas.describe percentiles (selected df via_admin)).
Proof. destruct via_admin; reflexivity. Qed.

(** C5: for every dataset and every choice of route, when the filter
    keeps no record the statistics step returns a table and raises
    nothing, and that table is the empty result: for every numeric
    column a count of zero and every other statistic undefined (NaN). *)
Theorem C5_empty_selection (df : dataframe) (via_admin : via) :
  selected df via_admin = [] ->
  tab5 df via_admin = empty_result
  /\ forall name get, In (name, get) numeric_columns ->
       Pandas.at_ (tab5 df via_admin) name (Pandas.label contagem)
       = Some 0%float
       /\ Pandas.at_ (tab5 df via_admin) name (Pandas.label media) = Some nan
       /\ Pandas.at_ (tab5 df via_admin) name (Pandas.percent 0.5)
          = Some nan.
Proof.
  intros Hsel. rewrite tab5_selected, Hsel.
  split; [vm_compute; reflexivity|].
  intros name get Hin. simpl in Hin.
  repeat (destruct Hin as [Hin|Hin];
          [inversion Hin; subst; vm_compute; repeat split; reflexivity|]).
  contradiction.
Qed.

Lemma C5_empty_selection_witness :
  tab5 Example.four_drugs Topica = empty_result
  /\ forall name get, In (name, get) numeric_columns ->
       Pandas.at_ (tab5 Example.four_drugs Topica) name
         (Pandas.label contagem) = Some 0%float
       /\ Pandas.at_ (tab5 Example.four_drugs Topica) name
            (Pandas.label media) = Some nan
       /\ Pandas.at_ (tab5 Example.four_drugs Topica) name
            (Pandas.percent 0.5) = Some nan.
Proof.
  apply (@C5_empty_selection Example.four_drugs Topica). reflexivity.
Defined.

(** ** The comparison of the periods *)








(** ** The tab of the periods *)




(** ** Structure encodings that do not parse *)

Lemma iloc0_same_row (df : dataframe) (name : string)
    (key key' : drug -> string) (v : string) :
  iloc0 df name key = Ok v -> exists v', iloc0 df name key' = Ok v'.
Proof.
  unfold iloc0. destruct (where_eq farmaco name df); [discriminate|].
  intros _. eexists. reflexivity.
Qed.

(** C8, as the code has it: when the structure encoding does not parse,
    the functions hand the missing molecule to the toolkit unguarded,
    and whatever exception the first toolkit call raises leaves
    [calculate_lipinski_properties] and [chemical_struture_2d]
    unchanged and ends the radar tab, which puts nothing on the page;
    no function turns it into another error. *)
Theorem C8_unparseable_propagates (tk : RDKit.toolkit) (smiles : string) :
  RDKit.MolFromSmiles tk smiles = None ->
  (forall e, RDKit.MolWt tk None = Raise e ->
             calculate_lipinski_properties tk smiles = Raise e)
  /\ (forall e, RDKit.MolToImage tk None = Raise e ->
        chemical_struture_2d tk smiles = Raise e
        /\ forall df name,
             iloc0 df name canonical_smiles = Ok smiles ->
             tab4 tk df name = Raise e).
Proof.
  intros Hparse. split.
  - intros e He. unfold calculate_lipinski_properties.
    rewrite Hparse, He. reflexivity.
  - intros e He.
    assert (H2d : chemical_struture_2d tk smiles = Raise e).
    { unfold chemical_struture_2d. rewrite Hparse, He. reflexivity. }
    split; [exact H2d|].
    intros df name Hrow. unfold tab4.
    destruct (@iloc0_same_row df name canonical_smiles
                classe_farmacologica smiles Hrow) as [c Hc].
    rewrite Hrow, Hc. simpl. rewrite H2d. reflexivity.
Qed.

Lemma C8_unparseable_propagates_witness :
  (forall e, RDKit.MolWt Example.toolkit None = Raise e ->
             calculate_lipinski_properties Example.toolkit Example.unparseable
             = Raise e)
  /\ (forall e, RDKit.MolToImage Example.toolkit None = Raise e ->
        chemical_struture_2d Example.toolkit Example.unparseable = Raise e
        /\ forall df name,
             iloc0 df name canonical_smiles = Ok Example.unparseable ->
             tab4 Example.toolkit df name = Raise e).
Proof.
  apply (@C8_unparseable_propagates Example.toolkit Example.unparseable).
  reflexivity.
Defined.

(** C8 fails as stated: on a string that does not parse, the descriptor
    computation ends with the toolkit's [ArgumentError] and the
    depiction with its [ValueError], neither of them
    [InvalidStructureError], and the radar tab ends with that exception
    instead of showing a cannot-render state. *)
Lemma C8_counterexample :
  RDKit.MolFromSmiles Example.toolkit Example.unparseable = None
  /\ calculate_lipinski_properties Example.toolkit Example.unparseable
     = Raise ArgumentError
  /\ chemical_struture_2d Example.toolkit Example.unparseable
     = Raise ValueError
  /\ tab4 Example.toolkit [Example.broken_drug] "x" = Raise ValueError
  /\ ~ fails_with
         (calculate_lipinski_properties Example.toolkit Example.unparseable)
         InvalidStructureError
  /\ ~ fails_with
         (chemical_struture_2d Example.toolkit Example.unparseable)
         InvalidStructureError.
Proof.
  repeat split; try reflexivity; intros H; vm_compute in H; discriminate.
Qed.

(** ** The table of statistics *)

Lemma rename_describe_labels (qs : list float) (df : dataframe)
    (name : string) (rows : Pandas.series) :
  In (name, rows)
     (Pandas.rename [("count", contagem); ("mean", media); ("std", dp)]
        (Pandas.describe qs df)) ->
  map fst rows
  = ([ Pandas.label contagem; Pandas.label media; Pandas.label dp;
       Pandas.label "min" ]
     ++ map Pandas.percent qs ++ [ Pandas.label "max" ])%list.
Proof.
  unfold Pandas.rename, Pandas.describe. rewrite map_map.
  intros Hin. apply in_map_iff in Hin. destruct Hin as [[n get] [Heq _]].
  inversion Heq; subst. clear Heq. simpl. do 4 f_equal.
  rewrite !map_app, !map_map. reflexivity.
Qed.

(** The rows of the table, from top to bottom: the seven statistics
    named by the specification, and the minimum and the maximum that
    the library reports as well. *)
Lemma statistics_rows (df : dataframe) (via_admin : via)
    (name : string) (rows : Pandas.series) :
  In (name, rows) (tab5 df via_admin) -> map fst rows = statistics_labels.
Proof.
  intros Hin. rewrite tab5_selected in Hin.
  apply rename_describe_labels in Hin. exact Hin.
Qed.


(** ** The descriptor mapping *)

(** C10: for every structure encoding that parses to a molecule (and a
    toolkit that answers for it), [calculate_lipinski_properties]
    returns the mapping with exactly the five keys HBD, MW, QED, LogP
    and HBA, in that order, holding the toolkit's five answers; the
    order pairs each key with its bound in [max_values]; the
    rule-of-five boolean is not among the entries. *)
Theorem C10_lipinski_keys (tk : RDKit.toolkit) (smiles : string)
    (m : RDKit.Mol tk) :
  RDKit.MolFromSmiles tk smiles = Some m ->
  RDKit.answers tk ->
  exists hbd mw q logp hba props,
    RDKit.NumHDonors tk (Some m) = Ok hbd
    /\ RDKit.MolWt tk (Some m) = Ok mw
    /\ RDKit.qed tk (Some m) = Ok q
    /\ RDKit.MolLogP tk (Some m) = Ok logp
    /\ RDKit.NumHAcceptors tk (Some m) = Ok hba
    /\ calculate_lipinski_properties tk smiles = Ok props
    /\ props = [ ("HBD", PyInt hbd); ("MW", PyFloat mw); ("QED", PyFloat q);
                 ("LogP", PyFloat logp); ("HBA", PyInt hba) ]
    /\ keys props = ["HBD"; "MW"; "QED"; "LogP"; "HBA"]
    /\ combine (keys props) max_values
       = [ ("HBD", PyInt 5); ("MW", PyInt 500); ("QED", PyInt 1);
           ("LogP", PyInt 5); ("HBA", PyInt 10) ].
Proof.
  intros Hparse [Hmw Hhbd Hhba Hlogp Hqed].
  destruct (Hmw m) as [mw Emw], (Hhbd m) as [hbd Ehbd],
    (Hhba m) as [hba Ehba], (Hlogp m) as [logp Elogp],
    (Hqed m) as [q Eq].
  exists hbd, mw, q, logp, hba. eexists.
  repeat split; try eassumption; try reflexivity.
  unfold calculate_lipinski_properties.
  rewrite Hparse, Emw, Ehbd, Ehba, Elogp, Eq. reflexivity.
Qed.

Lemma C10_lipinski_keys_witness :
  exists hbd mw q logp hba props,
    RDKit.NumHDonors Example.toolkit (Some tt) = Ok hbd
    /\ RDKit.MolWt Example.toolkit (Some tt) = Ok mw
    /\ RDKit.qed Example.toolkit (Some tt) = Ok q
    /\ RDKit.MolLogP Example.toolkit (Some tt) = Ok logp
    /\ RDKit.NumHAcceptors Example.toolkit (Some tt) = Ok hba
    /\ calculate_lipinski_properties Example.toolkit Example.aspirin
       = Ok props
    /\ props = [ ("HBD", PyInt hbd); ("MW", PyFloat mw); ("QED", PyFloat q);
                 ("LogP", PyFloat logp); ("HBA", PyInt hba) ]
    /\ keys props = ["HBD"; "MW"; "QED"; "LogP"; "HBA"]
    /\ combine (keys props) max_values
       = [ ("HBD", PyInt 5); ("MW", PyInt 500); ("QED", PyInt 1);
           ("LogP", PyInt 5); ("HBA", PyInt 10) ].
Proof.
  apply (@C10_lipinski_keys Example.toolkit Example.aspirin tt).
  - reflexivity.
  - constructor; intros m; eexists; reflexivity.
Defined.

(* ================================================================= *)
(** * Further properties of the code *)

(** ** Lists, pairs and the closed loop *)

Lemma removelast_close_loop {A} (l : list A) : removelast (close_loop l) = l.
Proof.
  destruct l as [|a l]; [reflexivity|].
  unfold close_loop. cbn [firstn]. apply removelast_last.
Qed.

Lemma nth_error_close_loop_last {A} (l : list A) :
  nth_error (close_loop l) (List.length l) = nth_error l 0.
Proof.
  destruct l as [|a l]; [reflexivity|].
  unfold close_loop. cbn [firstn nth_error].
  rewrite nth_error_app2 by lia. now rewrite Nat.sub_diag.
Qed.

Lemma nth_error_close_loop {A} (l : list A) (i : nat) :
  (i < List.length l)%nat -> nth_error (close_loop l) i = nth_error l i.
Proof. intros H. unfold close_loop. now apply nth_error_app1. Qed.

Lemma close_loop_repeat {A} (x : A) (n : nat) :
  close_loop (repeat x n) = repeat x (n + Nat.min 1 n).
Proof.
  destruct n as [|n]; [reflexivity|].
  unfold close_loop. cbn [repeat firstn Nat.min].
  rewrite repeat_app. reflexivity.
Qed.

Lemma nth_error_lt {A} (l : list A) (i : nat) :
  (i < List.length l)%nat -> exists x, nth_error l i = Some x.
Proof.
  intros H. destruct (nth_error l i) as [x|] eqn:E; [eauto|].
  apply nth_error_None in E. lia.
Qed.

Lemma zip3_nth_error_inv {A B C} (a : list A) (b : list B) (c : list C)
    (i : nat) (x : A) (y : B) (z : C) :
  nth_error (zip3 a b c) i = Some (x, y, z) ->
  nth_error a i = Some x /\ nth_error b i = Some y /\ nth_error c i = Some z.
Proof.
  revert b c i; induction a as [|x' a IH]; intros [|y' b] [|z' c] [|i];
    cbn; try discriminate.
  - intros H; inversion H; auto.
  - apply IH.
Qed.

Lemma nth_error_combine {A B} (a : list A) (b : list B) (i : nat)
    (x : A) (y : B) :
  nth_error a i = Some x -> nth_error b i = Some y ->
  nth_error (combine a b) i = Some (x, y).
Proof.
  revert b i; induction a as [|x' a IH]; intros [|y' b] [|i]; cbn;
    try discriminate.
  - congruence.
  - apply IH.
Qed.

Lemma nth_error_combine_inv {A B} (a : list A) (b : list B) (i : nat)
    (x : A) (y : B) :
  nth_error (combine a b) i = Some (x, y) ->
  nth_error a i = Some x /\ nth_error b i = Some y.
Proof.
  revert b i; induction a as [|x' a IH]; intros [|y' b] [|i]; cbn;
    try discriminate.
  - intros H; inversion H; auto.
  - apply IH.
Qed.

Lemma existsb_combine_nth {A B} (p : A * B -> bool) (a : list A)
    (b : list B) :
  existsb p (combine a b) = true <->
  exists i x y, nth_error a i = Some x /\ nth_error b i = Some y
                /\ p (x, y) = true.
Proof.
  rewrite existsb_exists. split.
  - intros [[x y] [Hin Hp]]. destruct (In_nth_error _ _ Hin) as [i Hi].
    apply nth_error_combine_inv in Hi. destruct Hi as [Hx Hy].
    exists i, x, y. auto.
  - intros (i & x & y & Hx & Hy & Hp). exists (x, y). split; [|exact Hp].
    eapply nth_error_In. apply nth_error_combine; eassumption.
Qed.

Lemma zip3_firstn {A B C} (a : list A) (b : list B) (c : list C) :
  zip3 a (firstn (List.length a) b) (firstn (List.length a) c) = zip3 a b c.
Proof.
  revert b c; induction a as [|x a IH]; intros [|y b] [|z c]; cbn;
    try reflexivity.
  now rewrite IH.
Qed.

Lemma combine_firstn_r {A B} (a : list A) (b : list B) :
  combine a (firstn (List.length a) b) = combine a b.
Proof.
  revert b; induction a as [|x a IH]; intros [|y b]; cbn; try reflexivity.
  now rewrite IH.
Qed.

(** A comprehension raises [e] exactly when one of its elements does
    and every element before it has been evaluated without error. *)
Lemma mapM_Raise_iff {A B} (f : A -> result B) (l : list A) (e : exception) :
  mapM f l = Raise e <->
  exists i a,
    nth_error l i = Some a /\ f a = Raise e
    /\ forall j a', (j < i)%nat -> nth_error l j = Some a' ->
                    exists b, f a' = Ok b.
Proof.
  induction l as [|a l IH]; cbn.
  - split; [discriminate|]. intros (i & a & H & _). now destruct i.
  - destruct (f a) as [b|e'] eqn:Ea; cbn.
    + destruct (mapM f l) as [bs|e'] eqn:El; cbn.
      * split; [discriminate|].
        intros (i & a' & Hi & Ha' & Hbefore). exfalso.
        destruct i as [|i]; cbn in Hi.
        -- inversion Hi; subst. congruence.
        -- assert (Hex : exists i a0, nth_error l i = Some a0
                     /\ f a0 = Raise e
                     /\ forall j a'0, (j < i)%nat ->
                          nth_error l j = Some a'0 -> exists b0, f a'0 = Ok b0).
           { exists i, a'. repeat split; try assumption.
             intros j a0 Hj Hn. apply (Hbefore (S j) a0); [lia|exact Hn]. }
           apply IH in Hex. discriminate.
      * split.
        -- intros H. inversion H; subst.
           destruct (proj1 IH eq_refl) as (i & a' & Hi & Ha' & Hbefore).
           exists (S i), a'. repeat split; try assumption.
           intros [|j] a0 Hj Hn; cbn in Hn.
           ++ inversion Hn; subst. eauto.
           ++ apply (Hbefore j a0); [lia|exact Hn].
        -- intros (i & a' & Hi & Ha' & Hbefore).
           destruct i as [|i]; cbn in Hi.
           ++ inversion Hi; subst. congruence.
           ++ f_equal.
              assert (Hex : exists i a0, nth_error l i = Some a0
                        /\ f a0 = Raise e
                        /\ forall j a'0, (j < i)%nat ->
                             nth_error l j = Some a'0 ->
                             exists b0, f a'0 = Ok b0).
              { exists i, a'. repeat split; try assumption.
                intros j a0 Hj Hn. apply (Hbefore (S j) a0); [lia|exact Hn]. }
              apply IH in Hex. congruence.
    + split.
      * intros H. inversion H; subst.
        exists 0%nat, a. repeat split; try assumption. intros j a' Hj. lia.
      * intros (i & a' & Hi & Ha' & Hbefore).
        destruct i as [|i]; cbn in Hi.
        -- inversion Hi; subst. congruence.
        -- destruct (Hbefore 0%nat a) as [b Hb]; [lia|reflexivity|].
           congruence.
Qed.

(** ** What a returned figure is made of *)

(** A figure is returned only once every quotient has been computed
    and both bound lists have an entry for every descriptor; it then
    holds the values below. *)
Lemma radar_inv (props : dict number) (mins maxs : list number)
    (title color : string) (fig : figure) :
  create_radar_plot_with_threshold props mins maxs title color = Ok fig ->
  exists out,
    normalized_values (values props) mins maxs = Ok out
    /\ List.length out = List.length props
    /\ (List.length props <= List.length mins)%nat
    /\ (List.length props <= List.length maxs)%nat
    /\ fig
       = {| polygon :=
              (close_loop (np_linspace_open 0 (2 * np_pi)%float
                             (List.length props)),
               close_loop out);
            threshold :=
              (close_loop (np_linspace_open 0 (2 * np_pi)%float
                             (List.length props)),
               close_loop (repeat (PyInt 1) (List.length props)));
            xticks := np_linspace_open 0 (2 * np_pi)%float
                        (List.length props);
            xticklabels := combine (keys props) maxs;
            annotations :=
              map (fun '(angle, value, normalized_value) =>
                     (angle, fmul normalized_value value_padding, value))
                  (zip3 (np_linspace_open 0 (2 * np_pi)%float
                           (List.length props))
                        (values props) out);
            plt_title := capitalize title;
            colour := color |}.
Proof.
  unfold create_radar_plot_with_threshold.
  destruct (normalized_values (values props) mins maxs) as [out|e] eqn:E;
    cbn [Py.bind]; [|discriminate].
  unfold same_first_dimension.
  rewrite !close_loop_length, np_linspace_open_length, repeat_length.
  unfold keys. rewrite length_map.
  destruct (Nat.eqb_spec (List.length props + Nat.min 1 (List.length props))
              (List.length out + Nat.min 1 (List.length out))) as [Hlen|Hlen];
    cbn [Py.bind]; [|discriminate].
  rewrite Nat.eqb_refl. cbn [Py.bind].
  rewrite !removelast_close_loop.
  intros H. inversion H; subst; clear H.
  exists out. split; [reflexivity|].
  assert (Hout : List.length out = List.length props) by lia.
  pose proof (normalized_length _ _ _ _ E) as Hmin.
  unfold values in Hmin. rewrite length_map in Hmin.
  repeat split; try lia.
Qed.

Lemma radar_of_normalized (props : dict number) (mins maxs : list number)
    (title color : string) (out : list float) :
  normalized_values (values props) mins maxs = Ok out ->
  (List.length props <= List.length mins)%nat ->
  (List.length props <= List.length maxs)%nat ->
  exists fig,
    create_radar_plot_with_threshold props mins maxs title color = Ok fig.
Proof.
  intros Hout Hmins Hmaxs.
  unfold create_radar_plot_with_threshold. rewrite Hout. cbn [Py.bind].
  pose proof (normalized_length _ _ _ _ Hout) as Hl.
  unfold values in Hl. rewrite length_map in Hl.
  assert (Hlen : List.length out = List.length props) by lia.
  unfold same_first_dimension.
  rewrite !close_loop_length, np_linspace_open_length, repeat_length.
  unfold keys. rewrite length_map, Hlen, Nat.eqb_refl.
  cbn [Py.bind]. eauto.
Qed.

(** The polygon of a returned figure is closed.  With K descriptors
    it has K + 1 vertices (none when K = 0), as many radii as angles,
    and its last vertex repeats the first one, in angle and in
    radius (lines 53-58 and 65-66). *)
Theorem radar_polygon_closed (props : dict number) (mins maxs : list number)
    (title color : string) (fig : figure) :
  create_radar_plot_with_threshold props mins maxs title color = Ok fig ->
  List.length (fst (polygon fig))
  = (List.length props + Nat.min 1 (List.length props))%nat
  /\ List.length (snd (polygon fig)) = List.length (fst (polygon fig))
  /\ nth_error (fst (polygon fig)) (List.length props)
     = nth_error (fst (polygon fig)) 0
  /\ nth_error (snd (polygon fig)) (List.length props)
     = nth_error (snd (polygon fig)) 0.
Proof.
  intros H. destruct (radar_inv _ _ _ _ _ _ H) as (out & _ & Hout & _ & _ & ->).
  cbn [polygon fst snd].
  rewrite !close_loop_length, np_linspace_open_length, Hout.
  repeat split.
  - pose proof (nth_error_close_loop_last
                  (np_linspace_open 0 (2 * np_pi)%float (List.length props)))
      as Hlast.
    rewrite np_linspace_open_length in Hlast. rewrite Hlast.
    destruct props as [|p props]; [reflexivity|].
    symmetry. apply nth_error_close_loop.
    rewrite np_linspace_open_length. cbn. lia.
  - rewrite <- Hout. rewrite nth_error_close_loop_last.
    destruct out as [|r out]; [reflexivity|].
    symmetry. apply nth_error_close_loop. cbn. lia.
Qed.

Lemma radar_polygon_closed_witness :
  exists fig,
    create_radar_plot_with_threshold
      Example.computed_properties min_values max_values "aspirina" "#0B1B82"
    = Ok fig
    /\ List.length (fst (polygon fig)) = 6%nat
    /\ List.length (snd (polygon fig)) = List.length (fst (polygon fig))
    /\ nth_error (fst (polygon fig)) 5 = nth_error (fst (polygon fig)) 0
    /\ nth_error (snd (polygon fig)) 5 = nth_error (snd (polygon fig)) 0.
Proof.
  eexists. split; [vm_compute; reflexivity|].
  refine (radar_polygon_closed
            Example.computed_properties min_values max_values
            "aspirina" "#0B1B82" _ _).
  vm_compute; reflexivity.
Defined.

(** The limit line of a returned figure runs over the angles of the
    polygon, vertex by vertex, and its radius is the int 1 at every
    one of them, whatever the descriptors and the bounds are
    (lines 61-62 and 69). *)
Theorem radar_threshold_ring (props : dict number) (mins maxs : list number)
    (title color : string) (fig : figure) :
  create_radar_plot_with_threshold props mins maxs title color = Ok fig ->
  fst (threshold fig) = fst (polygon fig)
  /\ snd (threshold fig)
     = repeat (PyInt 1) (List.length (fst (polygon fig))).
Proof.
  intros H. destruct (radar_inv _ _ _ _ _ _ H) as (out & _ & _ & _ & _ & ->).
  cbn [polygon threshold fst snd]. split; [reflexivity|].
  now rewrite close_loop_repeat, close_loop_length, np_linspace_open_length.
Qed.

Lemma radar_threshold_ring_witness :
  exists fig,
    create_radar_plot_with_threshold
      Example.computed_properties min_values max_values "aspirina" "#0B1B82"
    = Ok fig
    /\ fst (threshold fig) = fst (polygon fig)
    /\ snd (threshold fig)
       = repeat (PyInt 1) (List.length (fst (polygon fig))).
Proof.
  eexists. split; [vm_compute; reflexivity|].
  refine (radar_threshold_ring
            Example.computed_properties min_values max_values
            "aspirina" "#0B1B82" _ _).
  vm_compute; reflexivity.
Defined.

(** The axes of a returned figure are aligned with the descriptors.
    The ticks are the angles of the polygon without the closing one;
    there are K ticks, K labels and K annotations; and the descriptor
    at position i, of key k and value v, has its quotient
    [(v - min_i) / (max_i - min_i)] as the radius of vertex i, the
    label [k (max_i)] on tick i, and its own value v written at the
    angle of tick i and at 0.85 times that radius (lines 50, 53 and
    72-78). *)
Theorem radar_axes_and_annotations
    (props : dict number) (mins maxs : list number)
    (title color : string) (fig : figure) :
  create_radar_plot_with_threshold props mins maxs title color = Ok fig ->
  xticks fig = removelast (fst (polygon fig))
  /\ List.length (xticks fig) = List.length props
  /\ List.length (xticklabels fig) = List.length props
  /\ List.length (annotations fig) = List.length props
  /\ forall i k v,
       nth_error props i = Some (k, v) ->
       exists mn mx angle r,
         nth_error mins i = Some mn
         /\ nth_error maxs i = Some mx
         /\ normalize v mn mx = Ok r
         /\ nth_error (fst (polygon fig)) i = Some angle
         /\ nth_error (snd (polygon fig)) i = Some r
         /\ nth_error (xticks fig) i = Some angle
         /\ nth_error (xticklabels fig) i = Some (k, mx)
         /\ nth_error (annotations fig) i
            = Some (angle, fmul r value_padding, v).
Proof.
  intros H.
  destruct (radar_inv _ _ _ _ _ _ H) as (out & E & Hout & Hmins & Hmaxs & ->).
  cbn [polygon xticks xticklabels annotations fst snd].
  rewrite removelast_close_loop.
  split; [reflexivity|].
  split; [apply np_linspace_open_length|].
  split.
  { rewrite length_combine. unfold keys. rewrite length_map. lia. }
  split.
  { rewrite length_map, zip3_length, np_linspace_open_length.
    unfold values. rewrite length_map. lia. }
  intros i k v Hi.
  assert (Hlt : (i < List.length props)%nat).
  { apply nth_error_Some. congruence. }
  destruct (nth_error_lt mins i) as [mn Hmn]; [lia|].
  destruct (nth_error_lt maxs i) as [mx Hmx]; [lia|].
  destruct (nth_error_lt
              (np_linspace_open 0 (2 * np_pi)%float (List.length props)) i)
    as [angle Hangle]; [now rewrite np_linspace_open_length|].
  assert (Hv : nth_error (values props) i = Some v).
  { unfold values. rewrite nth_error_map, Hi. reflexivity. }
  assert (Hk : nth_error (keys props) i = Some k).
  { unfold keys. rewrite nth_error_map, Hi. reflexivity. }
  unfold normalized_values in E.
  destruct (mapM_nth_error _ _ _ i (v, mn, mx) E
              (zip3_nth_error _ _ _ i v mn mx Hv Hmn Hmx))
    as [r [Hr Hnorm]].
  exists mn, mx, angle, r.
  split; [exact Hmn|]. split; [exact Hmx|]. split; [exact Hnorm|].
  split.
  { rewrite nth_error_close_loop; [exact Hangle|].
    now rewrite np_linspace_open_length. }
  split.
  { rewrite nth_error_close_loop; [exact Hr|]. lia. }
  split; [exact Hangle|].
  split; [now apply nth_error_combine|].
  rewrite nth_error_map.
  rewrite (zip3_nth_error _ _ _ i angle v r Hangle Hv Hr). reflexivity.
Qed.

Lemma radar_axes_and_annotations_witness :
  exists fig,
    create_radar_plot_with_threshold
      Example.computed_properties min_values max_values "aspirina" "#0B1B82"
    = Ok fig
    /\ xticks fig = removelast (fst (polygon fig))
    /\ List.length (xticks fig) = 5%nat
    /\ List.length (xticklabels fig) = 5%nat
    /\ List.length (annotations fig) = 5%nat
    /\ forall i k v,
         nth_error Example.computed_properties i = Some (k, v) ->
         exists mn mx angle r,
           nth_error min_values i = Some mn
           /\ nth_error max_values i = Some mx
           /\ normalize v mn mx = Ok r
           /\ nth_error (fst (polygon fig)) i = Some angle
           /\ nth_error (snd (polygon fig)) i = Some r
           /\ nth_error (xticks fig) i = Some angle
           /\ nth_error (xticklabels fig) i = Some (k, mx)
           /\ nth_error (annotations fig) i
              = Some (angle, fmul r value_padding, v).
Proof.
  eexists. split; [vm_compute; reflexivity|].
  refine (radar_axes_and_annotations
            Example.computed_properties min_values max_values
            "aspirina" "#0B1B82" _ _).
  vm_compute; reflexivity.
Defined.

(** ** Bounds beyond the last descriptor *)

(** With K descriptors the function reads the first K entries of each
    bound list and nothing else: cutting both lists after K entries
    changes neither the figure nor the exception (the [zip]s of
    lines 50 and 53 stop at the shortest list). *)
Theorem radar_reads_first_bounds
    (props : dict number) (mins maxs : list number) (title color : string) :
  create_radar_plot_with_threshold props mins maxs title color
  = create_radar_plot_with_threshold props
      (firstn (List.length props) mins) (firstn (List.length props) maxs)
      title color.
Proof.
  unfold create_radar_plot_with_threshold, normalized_values.
  replace (zip3 (values props) (firstn (List.length props) mins)
             (firstn (List.length props) maxs))
    with (zip3 (values props) mins maxs).
  2:{ rewrite <- (length_map snd props). symmetry. apply zip3_firstn. }
  replace (combine (keys props) (firstn (List.length props) maxs))
    with (combine (keys props) maxs).
  2:{ rewrite <- (length_map fst props). symmetry. apply combine_firstn_r. }
  reflexivity.
Qed.

(** ** The first descriptor that fails *)

(** The comprehension of line 53 raises [e] exactly when some
    descriptor with both its bounds present makes the quotient raise
    [e] while the quotient of every descriptor before it is computed:
    the descriptors are taken from left to right and the first
    failure is the one that is raised. *)
Theorem normalized_values_first_failure
    (vs mns mxs : list number) (e : exception) :
  normalized_values vs mns mxs = Raise e <->
  exists i v mn mx,
    nth_error vs i = Some v /\ nth_error mns i = Some mn
    /\ nth_error mxs i = Some mx
    /\ normalize v mn mx = Raise e
    /\ forall j v' mn' mx',
         (j < i)%nat -> nth_error vs j = Some v' ->
         nth_error mns j = Some mn' -> nth_error mxs j = Some mx' ->
         exists r, normalize v' mn' mx' = Ok r.
Proof.
  unfold normalized_values. rewrite mapM_Raise_iff. split.
  - intros (i & [[v mn] mx] & Hi & He & Hbefore).
    apply zip3_nth_error_inv in Hi. destruct Hi as (Hv & Hmn & Hmx).
    exists i, v, mn, mx. repeat split; try assumption.
    intros j v' mn' mx' Hj Hv' Hmn' Hmx'.
    apply (Hbefore j (v', mn', mx') Hj).
    now apply zip3_nth_error.
  - intros (i & v & mn & mx & Hv & Hmn & Hmx & He & Hbefore).
    exists i, (v, mn, mx). split; [now apply zip3_nth_error|].
    split; [exact He|].
    intros j [[v' mn'] mx'] Hj Hn.
    apply zip3_nth_error_inv in Hn. destruct Hn as (Hv' & Hmn' & Hmx').
    now apply (Hbefore j v' mn' mx').
Qed.

(** ** Bounds that differ *)

Lemma SFcompare_finite_some (x y : spec_float) :
  SF_finite x = true -> SF_finite y = true ->
  exists c, SFcompare x y = Some c.
Proof.
  destruct x as [sx|sx| |sx mx ex], y as [sy|sy| |sy my ey];
    cbn [SF_finite SFcompare]; try discriminate; intros _ _; eauto.
Qed.

(** When [a == b] is false between regular numbers, the difference
    [a - b] is neither a zero nor a NaN. *)
Lemma ne_operand (a b : number) :
  regular a = true -> regular b = true -> Py.eq a b = false ->
  SF_zero (SF64sub (operand a) (operand b)) = false
  /\ SF_nan (SF64sub (operand a) (operand b)) = false.
Proof.
  intros Ha Hb. pose proof (regular_convertible a Ha) as Hca.
  pose proof (regular_convertible b Hb) as Hcb.
  pose proof (operand_valid a Hca) as Hva.
  pose proof (operand_valid b Hcb) as Hvb.
  destruct (SFcompare_finite_some (operand a) (operand b)
              (operand_finite a Ha) (operand_finite b Hb)) as [c Hc].
  unfold Py.eq.
  assert (Hgen : c <> Eq ->
                 SF_zero (SF64sub (operand a) (operand b)) = false
                 /\ SF_nan (SF64sub (operand a) (operand b)) = false).
  { intros Hne. now apply (SFsub_ne _ _ c Hc). }
  assert (Hint : forall x y : Z,
            (Z.log2 (Z.abs x) <? 48)%Z = true ->
            (Z.log2 (Z.abs y) <? 48)%Z = true -> x <> y ->
            SF_zero (SF64sub (Z2SF x) (Z2SF y)) = false
            /\ SF_nan (SF64sub (Z2SF x) (Z2SF y)) = false).
  { intros x y Hx Hy Hxy.
    apply Z.ltb_lt in Hx, Hy. apply Z_small in Hx, Hy.
    assert (H52 : ((2:Z) ^ 48 < 2 ^ 52)%Z) by (vm_compute; reflexivity).
    assert (H53 : ((2:Z) ^ 48 + 2 ^ 48 < 2 ^ 53)%Z)
      by (vm_compute; reflexivity).
    rewrite SFsub_Z2SF by lia.
    assert (Hd : (Z.abs (x - y) < 2 ^ 53)%Z) by lia.
    rewrite (Z2SF_sign (x - y) Hd) by lia. split; reflexivity. }
  destruct a as [x|x], b as [y|y]; cbn [Py.compare operand regular] in *.
  - destruct (Z.compare_spec x y) as [Heq|Hlt|Hgt]; try discriminate;
      intros _; apply Hint; try assumption; lia.
  - unfold float_int_compare. rewrite Hb. cbn [negb]. rewrite Ha.
    rewrite Prim2SF_float_of_Z by assumption.
    rewrite (SFcompare_swap _ _ c Hc). cbn [option_map].
    rewrite CompOpp_involutive.
    intros H. apply Hgen. intros ->. discriminate.
  - unfold float_int_compare. rewrite Ha. cbn [negb]. rewrite Hb.
    rewrite Prim2SF_float_of_Z by assumption. rewrite Hc.
    intros H. apply Hgen. intros ->. discriminate.
  - rewrite Hc. intros H. apply Hgen. intros ->. discriminate.
Qed.

Lemma normalize_regular_cases (v mn mx : number) :
  regular v = true -> regular mn = true -> regular mx = true ->
  if Py.eq mx mn then normalize v mn mx = Raise ZeroDivisionError
  else exists r, normalize v mn mx = Ok r.
Proof.
  intros Hv Hmn Hmx. destruct (Py.eq mx mn) eqn:Hne.
  - now apply normalize_zero_range.
  - destruct (sub_operand v mn Hv Hmn) as [num [Enum [Onum Cnum]]].
    destruct (sub_operand mx mn Hmx Hmn) as [den [Eden [Oden Cden]]].
    destruct (ne_operand mx mn Hmx Hmn Hne) as [Hz _].
    rewrite <- Oden in Hz.
    destruct (truediv_operand num den Cnum Cden Hz) as [r [Er _]].
    exists r. unfold normalize. rewrite Enum, Eden. exact Er.
Qed.

(** On regular numbers (finite doubles, ints of at most 48 bits) the
    quotient of line 53 has two outcomes only: it raises
    [ZeroDivisionError] exactly when [max_val == min_val], and it
    returns a double exactly when the two bounds differ, in
    whichever order they come: a range with [max_val < min_val] is
    accepted, and no [OverflowError] arises. *)
Theorem normalize_fails_iff_zero_range (v mn mx : number) :
  regular v = true -> regular mn = true -> regular mx = true ->
  (Py.eq mx mn = true <-> normalize v mn mx = Raise ZeroDivisionError)
  /\ (Py.eq mx mn = false <-> exists r, normalize v mn mx = Ok r).
Proof.
  intros Hv Hmn Hmx.
  pose proof (normalize_regular_cases v mn mx Hv Hmn Hmx) as Hc.
  destruct (Py.eq mx mn).
  - rewrite Hc. split; split; try reflexivity; try discriminate.
    intros [r Hr]. discriminate.
  - destruct Hc as [r Hr]. rewrite Hr.
    split; split; try reflexivity; try discriminate. eauto.
Qed.

Lemma normalize_fails_iff_zero_range_witness :
  (Py.eq (PyInt 0) (PyInt 5) = true
   <-> normalize (PyFloat 0x1.8p+1) (PyInt 5) (PyInt 0)
       = Raise ZeroDivisionError)
  /\ (Py.eq (PyInt 0) (PyInt 5) = false
      <-> exists r, normalize (PyFloat 0x1.8p+1) (PyInt 5) (PyInt 0) = Ok r).
Proof.
  apply (normalize_fails_iff_zero_range
           (PyFloat 0x1.8p+1) (PyInt 5) (PyInt 0));
    vm_compute; reflexivity.
Defined.

(** With one min and one max bound for every descriptor, all of them
    regular numbers, the radar plot function returns a figure exactly
    when no descriptor has [max_i == min_i], and raises
    [ZeroDivisionError] exactly when one has; whether the bounds are
    in order, and where the values lie, plays no part. *)
Theorem radar_regular_outcome
    (props : dict number) (mins maxs : list number) (title color : string) :
  List.length mins = List.length props ->
  List.length maxs = List.length props ->
  forallb regular (values props) = true ->
  forallb regular mins = true ->
  forallb regular maxs = true ->
  ((exists fig,
      create_radar_plot_with_threshold props mins maxs title color = Ok fig)
   <-> existsb (fun '(mn, mx) => Py.eq mx mn) (combine mins maxs) = false)
  /\ (create_radar_plot_with_threshold props mins maxs title color
      = Raise ZeroDivisionError
      <-> existsb (fun '(mn, mx) => Py.eq mx mn) (combine mins maxs) = true).
Proof.
  intros Hmins Hmaxs Hrv Hrmn Hrmx.
  rewrite forallb_forall in Hrv, Hrmn, Hrmx.
  assert (Hcases : forall i v mn mx,
            nth_error (values props) i = Some v ->
            nth_error mins i = Some mn -> nth_error maxs i = Some mx ->
            if Py.eq mx mn then normalize v mn mx = Raise ZeroDivisionError
            else exists r, normalize v mn mx = Ok r).
  { intros i v mn mx Hv Hmn Hmx.
    apply normalize_regular_cases;
      [apply Hrv|apply Hrmn|apply Hrmx]; eapply nth_error_In; eauto. }
  assert (Hvalue : forall i mn, nth_error mins i = Some mn ->
                                exists v, nth_error (values props) i = Some v).
  { intros i mn Hmn. apply nth_error_lt.
    unfold values. rewrite length_map, <- Hmins.
    apply nth_error_Some. congruence. }
  assert (Hzero : existsb (fun '(mn, mx) => Py.eq mx mn) (combine mins maxs)
                  = true ->
                  normalized_values (values props) mins maxs
                  = Raise ZeroDivisionError).
  { intros H. apply existsb_combine_nth in H.
    destruct H as (i & mn & mx & Hmn & Hmx & Heq).
    revert mn mx Hmn Hmx Heq.
    induction i as [i IH] using (well_founded_induction lt_wf).
    intros mn mx Hmn Hmx Heq.
    destruct (existsb (fun '(mn, mx) => Py.eq mx mn)
                (firstn i (combine mins maxs))) eqn:Hbefore.
    - apply existsb_exists in Hbefore.
      destruct Hbefore as [[mn' mx'] [Hin Heq']].
      destruct (In_nth_error _ _ Hin) as [j Hj].
      assert (Hji : (j < i)%nat).
      { assert (Hl : (j < List.length (firstn i (combine mins maxs)))%nat)
          by (apply nth_error_Some; congruence).
        rewrite length_firstn in Hl. lia. }
      rewrite nth_error_firstn in Hj.
      destruct (Nat.ltb_spec j i) as [_|Hge]; [|lia].
      apply nth_error_combine_inv in Hj. destruct Hj as [Hmn' Hmx'].
      exact (IH j Hji mn' mx' Hmn' Hmx' Heq').
    - unfold normalized_values. apply mapM_Raise_iff.
      destruct (Hvalue i mn Hmn) as [v Hv].
      exists i, (v, mn, mx). split; [now apply zip3_nth_error|]. split.
      + pose proof (Hcases i v mn mx Hv Hmn Hmx) as Hc.
        now rewrite Heq in Hc.
      + intros j [[v' mn'] mx'] Hj Hn.
        apply zip3_nth_error_inv in Hn. destruct Hn as (Hv' & Hmn' & Hmx').
        pose proof (Hcases j v' mn' mx' Hv' Hmn' Hmx') as Hc.
        destruct (Py.eq mx' mn') eqn:Heq'; [|exact Hc].
        exfalso.
        assert (Hex : existsb (fun '(mn, mx) => Py.eq mx mn)
                        (firstn i (combine mins maxs)) = true).
        { apply existsb_exists. exists (mn', mx'). split; [|exact Heq'].
          apply nth_error_In with (n := j).
          rewrite nth_error_firstn.
          destruct (Nat.ltb_spec j i) as [_|Hge]; [|lia].
          now apply nth_error_combine. }
        congruence. }
  assert (Hfine : existsb (fun '(mn, mx) => Py.eq mx mn) (combine mins maxs)
                  = false ->
                  exists fig,
                    create_radar_plot_with_threshold props mins maxs
                      title color = Ok fig).
  { intros H.
    destruct (mapM_total
                (fun '(value, min_val, max_val) =>
                   normalize value min_val max_val)
                (zip3 (values props) mins maxs)) as [out Hout].
    { intros [[v mn] mx] Hin.
      destruct (In_nth_error _ _ Hin) as [i Hi].
      apply zip3_nth_error_inv in Hi. destruct Hi as (Hv & Hmn & Hmx).
      pose proof (Hcases i v mn mx Hv Hmn Hmx) as Hc.
      destruct (Py.eq mx mn) eqn:Heq; [|exact Hc].
      exfalso.
      assert (Hex : existsb (fun '(mn, mx) => Py.eq mx mn)
                      (combine mins maxs) = true).
      { apply existsb_combine_nth. exists i, mn, mx. auto. }
      congruence. }
    apply (radar_of_normalized props mins maxs title color out Hout); lia. }
  split; split.
  - intros [fig Hfig].
    destruct (existsb _ (combine mins maxs)) eqn:E; [|reflexivity].
    destruct (radar_inv _ _ _ _ _ _ Hfig) as (out & Hout & _).
    rewrite (Hzero eq_refl) in Hout. discriminate.
  - exact Hfine.
  - intros Hraise.
    destruct (existsb _ (combine mins maxs)) eqn:E; [reflexivity|].
    destruct (Hfine eq_refl) as [fig Hfig]. congruence.
  - intros H. unfold create_radar_plot_with_threshold.
    now rewrite (Hzero H).
Qed.

Lemma radar_regular_outcome_witness :
  ((exists fig,
      create_radar_plot_with_threshold
        Example.computed_properties min_values max_values
        "aspirina" "#0B1B82" = Ok fig)
   <-> existsb (fun '(mn, mx) => Py.eq mx mn) (combine min_values max_values)
       = false)
  /\ (create_radar_plot_with_threshold
        Example.computed_properties min_values max_values
        "aspirina" "#0B1B82" = Raise ZeroDivisionError
      <-> existsb (fun '(mn, mx) => Py.eq mx mn)
            (combine min_values max_values) = true).
Proof.
  apply (radar_regular_outcome
           Example.computed_properties min_values max_values
           "aspirina" "#0B1B82");
    vm_compute; reflexivity.
Defined.

(** ** From the descriptors to the radar plot *)

Lemma calculate_lipinski_properties_inv (tk : RDKit.toolkit)
    (smiles : string) (props : dict number) :
  calculate_lipinski_properties tk smiles = Ok props ->
  exists mw hbd hba logp q,
    RDKit.MolWt tk (RDKit.MolFromSmiles tk smiles) = Ok mw
    /\ RDKit.NumHDonors tk (RDKit.MolFromSmiles tk smiles) = Ok hbd
    /\ RDKit.NumHAcceptors tk (RDKit.MolFromSmiles tk smiles) = Ok hba
    /\ RDKit.MolLogP tk (RDKit.MolFromSmiles tk smiles) = Ok logp
    /\ RDKit.qed tk (RDKit.MolFromSmiles tk smiles) = Ok q
    /\ props = [ ("HBD", PyInt hbd); ("MW", PyFloat mw); ("QED", PyFloat q);
                 ("LogP", PyFloat logp); ("HBA", PyInt hba) ].
Proof.
  unfold calculate_lipinski_properties. intros H.
  apply bind_Ok_inv in H. destruct H as (mw & Emw & H).
  apply bind_Ok_inv in H. destruct H as (hbd & Ehbd & H).
  apply bind_Ok_inv in H. destruct H as (hba & Ehba & H).
  apply bind_Ok_inv in H. destruct H as (logp & Elogp & H).
  apply bind_Ok_inv in H. destruct H as (q & Eq & H).
  exists mw, hbd, hba, logp, q. inversion H. auto 10.
Qed.

(** [calculate_lipinski_properties] returns exactly when each of its
    five descriptor calls returns, for any toolkit, and what it
    returns is their five answers under the five keys: the rule-of-
    five test of lines 27-32 neither filters the result nor raises,
    so a molecule that breaks the rule gets its dictionary just the
    same. *)
Theorem lipinski_returns_iff (tk : RDKit.toolkit) (smiles : string)
    (props : dict number) :
  calculate_lipinski_properties tk smiles = Ok props <->
  exists mw hbd hba logp q,
    RDKit.MolWt tk (RDKit.MolFromSmiles tk smiles) = Ok mw
    /\ RDKit.NumHDonors tk (RDKit.MolFromSmiles tk smiles) = Ok hbd
    /\ RDKit.NumHAcceptors tk (RDKit.MolFromSmiles tk smiles) = Ok hba
    /\ RDKit.MolLogP tk (RDKit.MolFromSmiles tk smiles) = Ok logp
    /\ RDKit.qed tk (RDKit.MolFromSmiles tk smiles) = Ok q
    /\ props = [ ("HBD", PyInt hbd); ("MW", PyFloat mw); ("QED", PyFloat q);
                 ("LogP", PyFloat logp); ("HBA", PyInt hba) ].
Proof.
  split; [apply calculate_lipinski_properties_inv|].
  intros (mw & hbd & hba & logp & q & Emw & Ehbd & Ehba & Elogp & Eq & ->).
  unfold calculate_lipinski_properties.
  rewrite Emw, Ehbd, Ehba, Elogp, Eq. reflexivity.
Qed.

(** The bounds of lines 189-190 are regular and each range has a
    positive width. *)
Lemma radar_of_regular (props : dict number) (title color : string) :
  List.length props = 5%nat ->
  forallb regular (values props) = true ->
  exists fig,
    create_radar_plot_with_threshold props min_values max_values title color
    = Ok fig.
Proof.
  intros Hlen Hreg.
  destruct (mapM_total
              (fun '(value, min_val, max_val) =>
                 normalize value min_val max_val)
              (zip3 (values props) min_values max_values)) as [out Hout].
  { intros [[v mn] mx] Hin.
    destruct (In_nth_error _ _ Hin) as [i Hi].
    apply zip3_nth_error_inv in Hi. destruct Hi as (Hv & Hmn & Hmx).
    assert (Hrv : regular v = true).
    { rewrite forallb_forall in Hreg. apply Hreg.
      eapply nth_error_In; eauto. }
    assert (Hb : regular mn = true /\ regular mx = true
                 /\ Py.lt mn mx = true).
    { unfold min_values, max_values in Hmn, Hmx.
      do 5 (destruct i as [|i];
            [cbn in Hmn, Hmx; inversion Hmn; inversion Hmx; subst;
             repeat split; vm_compute; reflexivity|]).
      destruct i; discriminate. }
    destruct Hb as (Hrmn & Hrmx & Hlt).
    destruct (normalize_regular v mn mx Hrv Hrmn Hrmx Hlt)
      as (den & r & _ & Hr & _).
    eauto. }
  apply (radar_of_normalized props min_values max_values title color out
           Hout); rewrite Hlen; cbn; lia.
Qed.

(** The two functions compose on the bounds that the page passes.
    Whenever [calculate_lipinski_properties] returns and its five
    values are regular numbers, the radar plot function returns a
    figure for them: a polygon of six vertices, the five keys
    labelled with the five maxima [5, 500, 1, 5, 10] in the order of
    the dictionary, and the five values written next to the
    vertices.  No molecule makes the plot divide by zero. *)
Theorem radar_of_computed_properties (tk : RDKit.toolkit) (smiles : string)
    (props : dict number) (title color : string) :
  calculate_lipinski_properties tk smiles = Ok props ->
  forallb regular (values props) = true ->
  exists fig,
    create_radar_plot_with_threshold props min_values max_values title color
    = Ok fig
    /\ List.length (snd (polygon fig)) = 6%nat
    /\ map fst (xticklabels fig) = ["HBD"; "MW"; "QED"; "LogP"; "HBA"]
    /\ map snd (xticklabels fig) = max_values
    /\ map (fun a => snd a) (annotations fig) = values props.
Proof.
  intros Hcalc Hreg.
  destruct (calculate_lipinski_properties_inv _ _ _ Hcalc)
    as (mw & hbd & hba & logp & q & _ & _ & _ & _ & _ & Hprops).
  destruct (radar_of_regular props title color) as [fig Hfig];
    [now subst|assumption|].
  exists fig. split; [exact Hfig|].
  destruct (radar_inv _ _ _ _ _ _ Hfig) as (out & _ & Hout & _ & _ & ->).
  cbn [polygon xticklabels annotations snd].
  rewrite close_loop_length, Hout. subst props. cbn [List.length].
  split; [reflexivity|]. split; [reflexivity|]. split; [reflexivity|].
  cbn [List.length] in Hout.
  do 5 (destruct out as [|? out]; [discriminate|]).
  destruct out; [|discriminate]. reflexivity.
Qed.

Lemma radar_of_computed_properties_witness :
  exists fig,
    create_radar_plot_with_threshold
      [ ("HBD", PyInt 1); ("MW", PyFloat 0x1.68516872b020cp+7);
        ("QED", PyFloat 0x1.19a6b50b0f27cp-1);
        ("LogP", PyFloat 0x1.4f62b6ae7d567p+0); ("HBA", PyInt 3) ]
      min_values max_values "aspirina" "#0B1B82"
    = Ok fig
    /\ List.length (snd (polygon fig)) = 6%nat
    /\ map fst (xticklabels fig) = ["HBD"; "MW"; "QED"; "LogP"; "HBA"]
    /\ map snd (xticklabels fig) = max_values
    /\ map (fun a => snd a) (annotations fig)
       = values
           [ ("HBD", PyInt 1); ("MW", PyFloat 0x1.68516872b020cp+7);
             ("QED", PyFloat 0x1.19a6b50b0f27cp-1);
             ("LogP", PyFloat 0x1.4f62b6ae7d567p+0); ("HBA", PyInt 3) ].
Proof.
  apply (radar_of_computed_properties Example.toolkit Example.aspirin);
    vm_compute; reflexivity.
Defined.

(** ** The tab of the radar plot *)

Lemma where_eq_absent (name : string) (df : dataframe) :
  ~ In name (map farmaco df) -> where_eq farmaco name df = [].
Proof.
  induction df as [|row df IH]; cbn; [reflexivity|]. intros H.
  destruct (String.eqb_spec (farmaco row) name) as [E|E].
  - exfalso. apply H. now left.
  - apply IH. intros Hin. apply H. now right.
Qed.


(** For a name that no record of the dataset bears, and so for an
    empty dataset, the tab ends with [IndexError], raised by the
    [.iloc[0]] of line 183 before the toolkit is called at all. *)
Theorem tab4_unknown_drug (tk : RDKit.toolkit) (df : dataframe)
    (name : string) :
  ~ In name (map farmaco df) -> tab4 tk df name = Raise IndexError.
Proof.
  intros H. unfold tab4, iloc0. rewrite (where_eq_absent _ _ H). reflexivity.
Qed.

Lemma tab4_unknown_drug_witness :
  tab4 Example.toolkit Example.four_drugs "e" = Raise IndexError.
Proof.
  apply (tab4_unknown_drug Example.toolkit Example.four_drugs "e").
  cbn. intros [H|[H|[H|[H|[]]]]]; discriminate H.
Defined.



(** ** The molecular formula *)

Lemma list_ascii_of_string_app (s t : string) :
  list_ascii_of_string (s ++ t)
  = list_ascii_of_string s ++ list_ascii_of_string t.
Proof. induction s as [|c s IH]; cbn; [reflexivity|now rewrite IH]. Qed.


Lemma subscript_digits (c : ascii) : digits (subscript c) = [].
Proof.
  destruct c as [[] [] [] [] [] [] [] []]; vm_compute; reflexivity.
Qed.

Lemma subscript_other (c : ascii) :
  is_digit c = false -> subscript c = String c EmptyString.
Proof. unfold subscript, is_digit. now intros ->. Qed.


Lemma translate_SUB_digits (s : string) : digits (translate_SUB s) = [].
Proof.
  induction s as [|c s IH]; [reflexivity|].
  cbn [translate_SUB]. unfold digits in *.
  rewrite list_ascii_of_string_app, filter_app, IH.
  fold (digits (subscript c)). now rewrite subscript_digits.
Qed.

Lemma translate_SUB_other (s : string) :
  digits s = [] -> translate_SUB s = s.
Proof.
  induction s as [|c s IH]; [reflexivity|].
  unfold digits. cbn [list_ascii_of_string filter translate_SUB].
  destruct (is_digit c) eqn:E; [discriminate|]. intros H.
  rewrite (subscript_other c E). cbn. f_equal. now apply IH.
Qed.




(** The translation returns its argument unchanged exactly when the
    argument holds no digit; it follows that translating a second
    time changes nothing. *)
Theorem translate_SUB_fixed_point (s : string) :
  (translate_SUB s = s <-> digits s = [])
  /\ translate_SUB (translate_SUB s) = translate_SUB s.
Proof.
  split; [split|].
  - intros H. rewrite <- H. apply translate_SUB_digits.
  - apply translate_SUB_other.
  - apply translate_SUB_other, translate_SUB_digits.
Qed.

(** ** The routes of administration *)

Lemma length_filter3 {A} (p q r : A -> bool) (l : list A) :
  (forall a, p a = true -> q a = false /\ r a = false) ->
  (forall a, q a = true -> r a = false) ->
  (List.length (filter p l) + List.length (filter q l)
   + List.length (filter r l) <= List.length l)%nat.
Proof.
  intros Hp Hq. induction l as [|a l IH]; cbn; [lia|].
  destruct (p a) eqn:Ep.
  - destruct (Hp a Ep) as [-> ->]. cbn. lia.
  - destruct (q a) eqn:Eq.
    + rewrite (Hq a Eq). cbn. lia.
    + destruct (r a); cbn; lia.
Qed.

(** The three routes of lines 211-216 share no record, every record
    they keep is one of the dataset, which is what 'Todas' keeps, and
    together they keep no more records than the dataset has: a record
    whose route is spelled otherwise than 'oral', 'parenteral' or
    'topical' enters the statistics of 'Todas' only. *)
Theorem routes_are_disjoint (df : dataframe) :
  (List.length (selected df Oral) + List.length (selected df Parenteral)
   + List.length (selected df Topica)
   <= List.length (selected df Todas))%nat
  /\ (forall row via_admin,
        In row (selected df via_admin) -> In row (selected df Todas))
  /\ (forall row,
        ~ (In row (selected df Oral) /\ In row (selected df Parenteral))
        /\ ~ (In row (selected df Oral) /\ In row (selected df Topica))
        /\ ~ (In row (selected df Parenteral)
              /\ In row (selected df Topica)))
  /\ (forall row,
        In row df ->
        via_administracao row <> "oral" ->
        via_administracao row <> "parenteral" ->
        via_administracao row <> "topical" ->
        ~ In row (selected df Oral) /\ ~ In row (selected df Parenteral)
        /\ ~ In row (selected df Topica)).
Proof.
  split; [|split; [|split]].
  - cbn [selected]. unfold where_eq. apply length_filter3.
    + intros a H. apply String.eqb_eq in H. rewrite H. split; reflexivity.
    + intros a H. apply String.eqb_eq in H. rewrite H. reflexivity.
  - intros row []; cbn [selected]; unfold where_eq;
      rewrite ?filter_In; tauto.
  - intros row. cbn [selected]. unfold where_eq.
    rewrite !filter_In, !String.eqb_eq.
    repeat split; intros [[_ H1] [_ H2]]; rewrite H1 in H2; discriminate.
  - intros row Hin Ho Hp Ht. cbn [selected]. unfold where_eq.
    rewrite !filter_In, !String.eqb_eq. tauto.
Qed.
